(** * PKCE helpers of okta-auth-js ([src/lib/pkce.ts])

    A shallow embedding of the PKCE module: the verifier generator, the
    challenge deriver, the two-tier flow metadata store and the token
    exchanger, followed by the properties proved about them.

    Conventions of the embedding.
    - A JavaScript string that the module percent-encodes (the prefix of
      a verifier, a field of the token parameters) is a [jsstring]: the
      list of its UTF-16 code units, so that [length] is the [.length] of
      the source and a lone surrogate can stand in it.
    - A string the module only stores, tests for emptiness, hashes or
      passes on, and every string it produces (messages, hex digits,
      percent-encoded text, base64), is a [string]: a sequence of code
      units in the range U+0000..U+00FF.
    - A JavaScript object used as a record is a [gmap string jsval].
    - Code that touches the storage tiers, the console or the network runs
      in the monad [M]: explicit passing of a [world], with a result that
      is either a value or a thrown error.  The [world] keeps, next to the
      content of the two tiers, the chronological trace of the calls made
      to the external collaborators. *)

From Stdlib Require Import ZArith NArith Lia Ascii String List Bool.
From stdpp Require Import base option gmap strings list.

Local Open Scope string_scope.

(** ** JavaScript values and objects *)

Inductive jsval : Type :=
| JUndefined
| JNull
| JBool (b : bool)
| JNum (n : Z)
| JStr (s : string).

(** [ToBoolean]: what [if (v)] and [!v] test. *)
Definition truthy (v : jsval) : bool :=
  match v with
  | JUndefined | JNull => false
  | JBool b => b
  | JNum n => negb (n =? 0)%Z
  | JStr s => match s with EmptyString => false | String _ _ => true end
  end.

(** Property read [o.k]: a missing property reads as [undefined]. *)
Definition getProp (o : gmap string jsval) (k : string) : jsval :=
  default JUndefined (o !! k).

(** [Object.assign({}, base, extra)]: the properties of [extra] win; an
    [undefined] source is skipped. *)
Definition objectAssign (base : gmap string jsval)
    (extra : option (gmap string jsval)) : gmap string jsval :=
  match extra with
  | Some o => o ∪ base
  | None => base
  end.

(** ** Errors *)

(** [AuthSdkError] is the only error class this module constructs; the
    message is its [errorSummary].
    Modelled from the spec: the failures of the HTTP collaborator are not
    part of the sources; a transport error is propagated from it
    unmodified.  [URIError] is what the built-in [encodeURIComponent]
    throws on a lone surrogate. *)
Inductive error : Type :=
| AuthSdkError (errorSummary : string)
| TransportError (detail : string)
| URIError.

(** ** The SDK configuration *)

(** [sdk.options.cookies] is an object with whatever properties the
    application has put there ([secure], [sameSite], ...); an absent one
    is the empty object. *)
Record Sdk : Type := {
  cookies : gmap string jsval
}.

(** ** The world: storage tiers and the trace of collaborator calls *)

(** Tier A is the durable tier ([localStorage]), tier B the session tier
    ([sessionStorage]). *)
Inductive tier : Type := TierA | TierB.

Record HttpRequest : Type := {
  url : string;
  method : string;
  args : string;
  withCredentials : bool;
  headers : list (string * string)
}.

Inductive event : Type :=
| EvGet (t : tier)
| EvSet (t : tier) (r : gmap string jsval)
| EvClear (t : tier)
| EvWarn (msg : string)
| EvHttp (req : HttpRequest).

Record world : Type := {
  localStorage : gmap string jsval;
  sessionStorage : gmap string jsval;
  trace : list event
}.

Definition readTier (t : tier) (w : world) : gmap string jsval :=
  match t with
  | TierA => localStorage w
  | TierB => sessionStorage w
  end.

Definition writeTier (t : tier) (r : gmap string jsval) (w : world) : world :=
  match t with
  | TierA => {| localStorage := r; sessionStorage := sessionStorage w;
                trace := trace w |}
  | TierB => {| localStorage := localStorage w; sessionStorage := r;
                trace := trace w |}
  end.

Definition record (e : event) (w : world) : world :=
  {| localStorage := localStorage w; sessionStorage := sessionStorage w;
     trace := trace w ++ [e] |}.

(** ** The monad of effectful code *)

Inductive result (A : Type) : Type :=
| Ok (a : A)
| Throw (e : error).

Arguments Ok {A} a.
Arguments Throw {A} e.

Definition M (A : Type) : Type := world → result A * world.

#[global] Instance M_ret : MRet M := λ A a w, (Ok a, w).

#[global] Instance M_bind : MBind M := λ A B f c w,
  match c w with
  | (Ok a, w') => f a w'
  | (Throw e, w') => (Throw e, w')
  end.

Definition throw {A : Type} (e : error) : M A := λ w, (Throw e, w).

(** Pure code that can throw has a [result]; it is sequenced likewise. *)
#[global] Instance result_ret : MRet result := λ A a, Ok a.

#[global] Instance result_bind : MBind result := λ A B f r,
  match r with
  | Ok a => f a
  | Throw e => Throw e
  end.

Definition emit (e : event) : M unit := λ w, (Ok tt, record e w).

(** Modelled from the spec: [warn] of [./util] is not part of the
    sources; a hazard warning is logged and the flow proceeds. *)
Definition warn (msg : string) : M unit := emit (EvWarn msg).

(** ** The storage collaborator *)

(** Modelled from the spec: [storageUtil.getPKCEStorage] is not part of
    the sources.  It resolves the tier from the configuration object: the
    durable tier when [preferLocalStorage] is set, the session tier
    otherwise. *)
Definition getPKCEStorage (options : gmap string jsval) : tier :=
  if truthy (getProp options "preferLocalStorage") then TierA else TierB.

(** Modelled from the spec: the per-tier storage interface
    [getStorage() -> Record], [setStorage(record)], [clearStorage()]. *)
Module PKCEStorage.

Definition getStorage (t : tier) : M (gmap string jsval) :=
  λ w, (Ok (readTier t w), record (EvGet t) w).

Definition setStorage (t : tier) (r : gmap string jsval) : M unit :=
  λ w, (Ok tt, record (EvSet t r) (writeTier t r w)).

Definition clearStorage (t : tier) : M unit :=
  λ w, (Ok tt, record (EvClear t) (writeTier t ∅ w)).

End PKCEStorage.

(** ** The flow metadata store *)

Definition getStorage (sdk : Sdk) (options : option (gmap string jsval)) : tier :=
  getPKCEStorage (objectAssign (cookies sdk) options).

Definition warnLocalStorage : string :=
  "saveMeta: PKCE codeVerifier exists in localStorage. This may indicate an auth flow is already in progress.".

Definition warnSessionStorage : string :=
  "saveMeta: PKCE codeVerifier exists in sessionStorage. This may indicate an auth flow is already in progress.".

Definition errNoPKCEState : string :=
  "Could not load PKCE codeVerifier from storage. This may indicate the auth flow has already completed or multiple auth flows are executing concurrently.".

Definition clearMeta (sdk : Sdk) : M unit :=
  let storage := getStorage sdk None in
  PKCEStorage.clearStorage storage;;
  let storage := getStorage sdk (Some {["preferLocalStorage" := JBool true]}) in
  PKCEStorage.clearStorage storage.

Definition saveMeta (sdk : Sdk) (meta : gmap string jsval) : M unit :=
  let storage := getStorage sdk (Some {["preferLocalStorage" := JBool true]}) in
  obj ← PKCEStorage.getStorage storage;
  (if truthy (getProp obj "codeVerifier")
   then warn warnLocalStorage else mret tt);;
  let storage := getStorage sdk None in
  obj ← PKCEStorage.getStorage storage;
  (if truthy (getProp obj "codeVerifier")
   then warn warnSessionStorage else mret tt);;
  clearMeta sdk;;
  PKCEStorage.setStorage storage meta.

Definition loadMeta (sdk : Sdk) : M (gmap string jsval) :=
  let storage := getStorage sdk (Some {["preferLocalStorage" := JBool true]}) in
  obj ← PKCEStorage.getStorage storage;
  if negb (truthy (getProp obj "codeVerifier")) then
    let storage := getStorage sdk (Some {["preferLocalStorage" := JBool false]}) in
    obj ← PKCEStorage.getStorage storage;
    if negb (truthy (getProp obj "codeVerifier")) then
      throw (AuthSdkError errNoPKCEState)
    else mret obj
  else mret obj.

(** ** Strings: the JavaScript operations the module uses *)

(** [s.slice(start, end)] for non-negative indices. *)
Definition slice (s : string) (start stop : nat) : string :=
  substring start (stop - start) s.

(** [s.slice(start)] for a non-negative index. *)
Definition sliceFrom (s : string) (start : nat) : string :=
  substring start (String.length s - start) s.

(** [s.substr(-n)]: the last [n] code units. *)
Definition substrLast (s : string) (n : nat) : string :=
  substring (String.length s - n) n s.

(** [strs.join(sep)]. *)
Fixpoint join (sep : string) (strs : list string) : string :=
  match strs with
  | [] => ""
  | [x] => x
  | x :: rest => x ++ sep ++ join sep rest
  end.

Definition digitChar (alphabet : string) (n : N) : ascii :=
  match get (N.to_nat n) alphabet with
  | Some c => c
  | None => "0"%char
  end.

(** [n.toString(16)]: lower-case digits, most significant first. *)
Fixpoint toHexDigits (fuel : nat) (n : N) (acc : string) : string :=
  let acc' := String (digitChar "0123456789abcdef" (n mod 16)%N) acc in
  match fuel with
  | O => acc'
  | S fuel' =>
      if (n / 16 =? 0)%N then acc' else toHexDigits fuel' (n / 16)%N acc'
  end.

Definition toString16 (n : N) : string :=
  toHexDigits (N.to_nat (N.size n)) n "".

(** The UTF-8 bytes of one code unit below U+0100. *)
Definition utf8 (c : ascii) : list N :=
  let n := N_of_ascii c in
  if (n <? 128)%N then [n]
  else [N.lor 192 (N.shiftr n 6); N.lor 128 (N.land n 63)].

Definition isAlnum (c : ascii) : bool :=
  let n := N_of_ascii c in
  ((48 <=? n) && (n <=? 57) || (65 <=? n) && (n <=? 90)
   || (97 <=? n) && (n <=? 122))%N.

Fixpoint occurs (c : ascii) (s : string) : bool :=
  match s with
  | EmptyString => false
  | String d r => Ascii.eqb c d || occurs c r
  end.

(** The characters [encodeURIComponent] leaves as they are. *)
Definition uriUnreserved (c : ascii) : bool :=
  isAlnum c || occurs c "-_.!~*'()".

Definition percentByte (b : N) : string :=
  String "%" (String (digitChar "0123456789ABCDEF" (b / 16)%N)
    (String (digitChar "0123456789ABCDEF" (b mod 16)%N) "")).

(** *** UTF-16 strings and percent-encoding *)

(** A JavaScript string as the list of its UTF-16 code units, each a
    number below 2^16. *)
Definition jsstring : Type := list N.

(** A string of code units below U+0100, as a JavaScript string. *)
Fixpoint ofString (s : string) : jsstring :=
  match s with
  | EmptyString => []
  | String c r => N_of_ascii c :: ofString r
  end.

Definition isLeadSurrogate (c : N) : bool :=
  ((0xD800 <=? c) && (c <=? 0xDBFF))%N.

Definition isTrailSurrogate (c : N) : bool :=
  ((0xDC00 <=? c) && (c <=? 0xDFFF))%N.

(** The code point a surrogate pair stands for. *)
Definition pairCodePoint (lead trail : N) : N :=
  ((lead - 0xD800) * 0x400 + (trail - 0xDC00) + 0x10000)%N.

(** The UTF-8 bytes of a code point. *)
Definition utf8Bytes (cp : N) : list N :=
  if (cp <? 0x80)%N then [cp]
  else if (cp <? 0x800)%N then
    [N.lor 0xC0 (N.shiftr cp 6); N.lor 0x80 (N.land cp 0x3F)]
  else if (cp <? 0x10000)%N then
    [N.lor 0xE0 (N.shiftr cp 12);
     N.lor 0x80 (N.land (N.shiftr cp 6) 0x3F);
     N.lor 0x80 (N.land cp 0x3F)]
  else
    [N.lor 0xF0 (N.shiftr cp 18);
     N.lor 0x80 (N.land (N.shiftr cp 12) 0x3F);
     N.lor 0x80 (N.land (N.shiftr cp 6) 0x3F);
     N.lor 0x80 (N.land cp 0x3F)].

(** The escape sequence of a code point: [%XX] for each UTF-8 byte. *)
Definition escape (cp : N) : string :=
  String.concat "" (map percentByte (utf8Bytes cp)).

Definition unitUnreserved (c : N) : bool :=
  (c <? 128)%N && uriUnreserved (ascii_of_N c).

(** The built-in [encodeURIComponent]: an unreserved character stays, a
    surrogate pair and every other character become the escape sequence
    of their code point, and a lone surrogate throws [URIError]. *)
Fixpoint encodeURIComponent (s : jsstring) : result string :=
  match s with
  | [] => Ok ""
  | c :: r =>
      if unitUnreserved c then
        e ← encodeURIComponent r; mret (String (ascii_of_N c) e)
      else if isLeadSurrogate c then
        match r with
        | d :: r' =>
            if isTrailSurrogate d then
              e ← encodeURIComponent r'; mret (escape (pairCodePoint c d) ++ e)
            else Throw URIError
        | [] => Throw URIError
        end
      else if isTrailSurrogate c then Throw URIError
      else e ← encodeURIComponent r; mret (escape c ++ e)
  end.

(** [new TextEncoder().encode(str)]. *)
Fixpoint textEncode (s : string) : list N :=
  match s with
  | EmptyString => []
  | String c r => utf8 c ++ textEncode r
  end.

(** [String.fromCharCode.apply(null, bytes)]. *)
Fixpoint fromCharCode (bytes : list N) : string :=
  match bytes with
  | [] => ""
  | b :: r => String (ascii_of_N b) (fromCharCode r)
  end.

(** ** The verifier generator *)

(** Modelled from the spec: the constants of [./constants] are not part of
    the sources; a code verifier has "43-128 characters after encoding". *)
Definition MIN_VERIFIER_LENGTH : nat := 43.
Definition MAX_VERIFIER_LENGTH : nat := 128.

Definition dec2hex (dec : N) : string :=
  substrLast ("0" ++ toString16 dec) 2.

Section Verifier.

(** The secure random source: the [i]-th byte it hands out. *)
Variable entropy : nat → Byte.byte.

(** [crypto.getRandomValues] on a fresh [Uint8Array] of [n] bytes. *)
Definition getRandomValues (n : nat) : list Byte.byte :=
  map entropy (seq 0 n).

Definition getRandomString (length : nat) : string :=
  let a := getRandomValues (Nat.div2 (length + 1)) in
  let str := join "" (map (λ b, dec2hex (Byte.to_N b)) a) in
  slice str 0 length.

Definition generateVerifier (prefix : option jsstring) : result string :=
  let verifier : jsstring :=
    match prefix with
    | Some p => match p with [] => [] | _ :: _ => p end
    | None => []
    end in
  let verifier : jsstring :=
    if Nat.ltb (length verifier) MIN_VERIFIER_LENGTH
    then (verifier
          ++ ofString (getRandomString (MIN_VERIFIER_LENGTH - length verifier)))%list
    else verifier in
  encoded ← encodeURIComponent verifier;
  mret (slice encoded 0 MAX_VERIFIER_LENGTH).

End Verifier.

(** ** Promises *)

(** A promise is represented by the way it settles. *)
Inductive promise (A : Type) : Type :=
| Resolved (a : A)
| Rejected (e : error).

Arguments Resolved {A} a.
Arguments Rejected {A} e.

(** ** The challenge deriver *)

Definition base64Alphabet : string :=
  "ABCDEFGHIJKLMNOPQRSTUVWXYZabcdefghijklmnopqrstuvwxyz0123456789+/".

Definition b64 (n : N) : ascii := digitChar base64Alphabet n.

(** [btoa]: standard base64 with padding, three code units at a time. *)
Fixpoint btoa (s : string) : string :=
  match s with
  | EmptyString => ""
  | String a EmptyString =>
      let x := N_of_ascii a in
      String (b64 (N.shiftr x 2))
        (String (b64 (N.shiftl (N.land x 3) 4)) "==")
  | String a (String b EmptyString) =>
      let x := N_of_ascii a in
      let y := N_of_ascii b in
      String (b64 (N.shiftr x 2))
        (String (b64 (N.lor (N.shiftl (N.land x 3) 4) (N.shiftr y 4)))
          (String (b64 (N.shiftl (N.land y 15) 2)) "="))
  | String a (String b (String c r)) =>
      let x := N_of_ascii a in
      let y := N_of_ascii b in
      let z := N_of_ascii c in
      String (b64 (N.shiftr x 2))
        (String (b64 (N.lor (N.shiftl (N.land x 3) 4) (N.shiftr y 4)))
          (String (b64 (N.lor (N.shiftl (N.land y 15) 2) (N.shiftr z 6)))
            (String (b64 (N.land z 63)) (btoa r))))
  end.

(** [s.replace(/c/g, d)] for a single character [c]. *)
Fixpoint replaceAll (c d : ascii) (s : string) : string :=
  match s with
  | EmptyString => ""
  | String x r => String (if Ascii.eqb x c then d else x) (replaceAll c d r)
  end.

(** [s.replace(/=+$/, '')]: drops the run of [=] that ends the string. *)
Fixpoint stripPadding (s : string) : string :=
  match s with
  | EmptyString => ""
  | String x r =>
      match stripPadding r with
      | EmptyString => if Ascii.eqb x "=" then "" else String x ""
      | r' => String x r'
      end
  end.

(** Modelled from the spec: [base64ToBase64Url] of [./util] is not part of
    the sources: "no padding, [+] to [-], [/] to [_]". *)
Definition base64ToBase64Url (b64 : string) : string :=
  stripPadding (replaceAll "/" "_" (replaceAll "+" "-" b64)).

(** Modelled from the spec: [stringToBase64Url] of [./util] is not part of
    the sources: it base64url-encodes the raw digest bytes. *)
Definition stringToBase64Url (str : string) : string :=
  base64ToBase64Url (btoa str).

Section Challenge.

(** The digest primitive [crypto.subtle.digest('SHA-256', _)], on byte
    values. *)
Variable sha256 : list N → list N.

Definition computeChallenge (str : string) : M (promise string) :=
  let buffer := textEncode str in
  let arrayBuffer := sha256 buffer in
  let hash := fromCharCode arrayBuffer in
  let b64u := stringToBase64Url hash in
  mret (Resolved b64u).

End Challenge.

(** ** The token exchanger *)

(** Each field is a string or [undefined]. *)
Record TokenParams : Type := {
  clientId : option jsstring;
  redirectUri : option jsstring;
  authorizationCode : option jsstring;
  interactionCode : option jsstring;
  codeVerifier : option jsstring
}.

Record CustomUrls : Type := {
  tokenUrl : string
}.

(** [ToBoolean] of a field: a non-empty string. *)
Definition truthyField (f : option jsstring) : bool :=
  match f with
  | Some (_ :: _) => true
  | _ => false
  end.

Definition errClientId : string :=
  "A clientId must be specified in the OktaAuth constructor to get a token".

Definition errRedirectUri : string :=
  "The redirectUri passed to /authorize must also be passed to /token".

Definition errCode : string :=
  "An authorization code (returned from /authorize) must be passed to /token".

(** The double quote, as a one-character string. *)
Definition dquote : string := String "034"%char EmptyString.

Definition errCodeVerifier : string :=
  "The " ++ dquote ++ "codeVerifier" ++ dquote
    ++ " (generated and saved by your app) must be passed to /token".

Definition validateOptions (options : TokenParams) : M unit :=
  (if negb (truthyField (clientId options))
   then throw (AuthSdkError errClientId) else mret tt);;
  (if negb (truthyField (redirectUri options))
   then throw (AuthSdkError errRedirectUri) else mret tt);;
  (if negb (truthyField (authorizationCode options))
      && negb (truthyField (interactionCode options))
   then throw (AuthSdkError errCode) else mret tt);;
  (if negb (truthyField (codeVerifier options))
   then throw (AuthSdkError errCodeVerifier) else mret tt).

(** The OAuth parameters: an object whose properties keep their insertion
    order; a property may hold [undefined] ([None]). *)
Definition OAuthParams : Type := list (string * option jsstring).

(** Assignment [obj[k] = v]: in place when the property exists, appended
    otherwise. *)
Fixpoint setProp (k : string) (v : option jsstring) (obj : OAuthParams) : OAuthParams :=
  match obj with
  | [] => [(k, v)]
  | (k', v') :: rest =>
      if String.eqb k k' then (k, v) :: rest else (k', v') :: setProp k v rest
  end.

(** Property read [obj[k]]. *)
Fixpoint readProp (k : string) (obj : OAuthParams) : option jsstring :=
  match obj with
  | [] => None
  | (k', v) :: rest => if String.eqb k k' then v else readProp k rest
  end.

Definition hasOwnProperty (k : string) (obj : OAuthParams) : bool :=
  existsb (λ p, String.eqb k (fst p)) obj.

(** Modelled from the spec: [removeNils] of [./util] is not part of the
    sources: it drops every parameter whose value is absent. *)
Definition removeNils (obj : OAuthParams) : OAuthParams :=
  List.filter (λ p, match snd p with Some _ => true | None => false end) obj.

(** The [key=value] strings of the parameters that have a value, the
    value percent-encoded. *)
Fixpoint encodePairs (obj : OAuthParams) : result (list string) :=
  match obj with
  | [] => Ok []
  | (k, Some v) :: rest =>
      e ← encodeURIComponent v;
      str ← encodePairs rest;
      mret ((k ++ "=" ++ e) :: str)
  | (k, None) :: rest => encodePairs rest
  end.

(** Modelled from the spec: [toQueryString] of [./util] is not part of the
    sources: it form-encodes the parameters that have a value, after a
    leading [?]. *)
Definition toQueryString (obj : OAuthParams) : result string :=
  str ← encodePairs obj;
  mret (match str with
        | [] => ""
        | _ => "?" ++ join "&" str
        end).

Definition getPostParams (options : TokenParams) : OAuthParams :=
  let params := removeNils
    [ ("client_id", clientId options);
      ("redirect_uri", redirectUri options);
      ("grant_type",
         Some (ofString (if truthyField (interactionCode options)
                         then "interaction_code" else "authorization_code")));
      ("code_verifier", codeVerifier options) ] in
  if truthyField (interactionCode options) then
    setProp "interaction_code" (interactionCode options) params
  else if truthyField (authorizationCode options) then
    setProp "code" (authorizationCode options) params
  else params.

Definition getPostData (options : TokenParams) : result string :=
  query ← toQueryString (getPostParams options);
  mret (sliceFrom query 1).

Section Exchange.

(** What the token endpoint returns is opaque to this module. *)
Variable OAuthResponse : Type.

(** Modelled from the spec: the HTTP collaborator ([./http]) is not part
    of the sources: [post(url, formBody, headers, withCredentials)] gives
    a promise of the parsed response.  [endpoint] is the way the promise
    settles for a given request. *)
Variable endpoint : HttpRequest → promise OAuthResponse.

Definition httpRequest (sdk : Sdk) (req : HttpRequest) : M (promise OAuthResponse) :=
  λ w, (Ok (endpoint req), record (EvHttp req) w).

Definition exchangeCodeForTokens (sdk : Sdk) (options : TokenParams)
    (urls : CustomUrls) : M (promise OAuthResponse) :=
  validateOptions options;;
  match getPostData options with
  | Throw e => throw e
  | Ok data =>
      httpRequest sdk
        {| url := tokenUrl urls;
           method := "POST";
           args := data;
           withCredentials := false;
           headers := [("Content-Type", "application/x-www-form-urlencoded")] |}
  end.

End Exchange.

(** ** Predicates of the specification *)

(** The test [obj.codeVerifier] of [saveMeta] and [loadMeta]: the record
    holds a code verifier. *)
Definition hasCodeVerifier (obj : gmap string jsval) : bool :=
  truthy (getProp obj "codeVerifier").

(** At most one record with a code verifier across the two tiers. *)
Definition atMostOneRecord (w : world) : bool :=
  negb (hasCodeVerifier (localStorage w) && hasCodeVerifier (sessionStorage w)).

(** The number of tiers that hold a record with a code verifier. *)
Definition recordCount (w : world) : nat :=
  (if hasCodeVerifier (localStorage w) then 1 else 0)
  + (if hasCodeVerifier (sessionStorage w) then 1 else 0).

(** The test [!options.field] of [validateOptions]: the field is missing. *)
Definition missing (f : option jsstring) : bool :=
  negb (truthyField f).

(** The calls of the inspection phase of [saveMeta] from the world [w]:
    it reads tier A, then the tier [getStorage(sdk)] resolves to. *)
Definition saveMetaInspection (sdk : Sdk) (w : world) : list event :=
  [EvGet TierA]
  ++ (if hasCodeVerifier (localStorage w) then [EvWarn warnLocalStorage] else [])
  ++ [EvGet (getStorage sdk None)]
  ++ (if hasCodeVerifier (readTier (getStorage sdk None) w)
      then [EvWarn warnSessionStorage] else []).

(** The calls [saveMeta] makes, in order, from the world [w]. *)
Definition saveMetaTrace (sdk : Sdk) (w : world) (meta : gmap string jsval)
    : list event :=
  saveMetaInspection sdk w
  ++ [EvClear (getStorage sdk None); EvClear TierA;
      EvSet (getStorage sdk None) meta].

(** Only reads and warnings: the calls of the inspection phase. *)
Definition isInspection (e : event) : bool :=
  match e with
  | EvGet _ | EvWarn _ => true
  | _ => false
  end.

(** A record without a usable code verifier: the field is absent or is
    the empty string. *)
Definition blankVerifier (obj : gmap string jsval) : Prop :=
  obj !! "codeVerifier" = None ∨ obj !! "codeVerifier" = Some (JStr "").

Definition setLocalStorage (r : gmap string jsval) (w : world) : world :=
  writeTier TierA r w.

(** The request [exchangeCodeForTokens] hands to the HTTP client, for the
    body [data]. *)
Definition tokenRequest (data : string) (urls : CustomUrls) : HttpRequest :=
  {| url := tokenUrl urls;
     method := "POST";
     args := data;
     withCredentials := false;
     headers := [("Content-Type", "application/x-www-form-urlencoded")] |}.

(** Every code unit of [s] passes the test [p]. *)
Fixpoint allChars (p : ascii → bool) (s : string) : bool :=
  match s with
  | EmptyString => true
  | String c r => p c && allChars p r
  end.

Definition isHexDigit (c : ascii) : bool := occurs c "0123456789abcdef".

(** The characters of a percent-encoded string. *)
Definition urlSafe (c : ascii) : bool := uriUnreserved c || Ascii.eqb c "%".

(** [prefix || '']. *)
Definition prefixOrEmpty (prefix : option jsstring) : jsstring :=
  match prefix with
  | Some p => p
  | None => []
  end.

(** [String.prototype.isWellFormed]: the string has no lone surrogate. *)
Fixpoint isWellFormed (s : jsstring) : bool :=
  match s with
  | [] => true
  | c :: r =>
      if isLeadSurrogate c then
        match r with
        | d :: r' => isTrailSurrogate d && isWellFormed r'
        | [] => false
        end
      else negb (isTrailSurrogate c) && isWellFormed r
  end.

(** The number of HTTP requests in a trace. *)
Definition countHttp (calls : list event) : nat :=
  length (List.filter (λ e, match e with EvHttp _ => true | _ => false end) calls).

(** A character other than [+], [/] and the padding [=]. *)
Definition challengeChar (c : ascii) : bool :=
  negb (Ascii.eqb c "+") && negb (Ascii.eqb c "/") && negb (Ascii.eqb c "=").

Definition isPadding (c : ascii) : bool := Ascii.eqb c "=".

(** Every [=] of the string is followed by [=] only. *)
Fixpoint tailPadded (s : string) : bool :=
  match s with
  | EmptyString => true
  | String c r => (if isPadding c then allChars isPadding r else true)
                  && tailPadded r
  end.

(** ** Sample inputs *)

(** A stale record in tier A, a record in tier B, and a new record with an
    extra field. *)
Definition staleWorld : world :=
  {| localStorage := {["codeVerifier" := JStr "old-A"]};
     sessionStorage := {["codeVerifier" := JStr "old-B"]};
     trace := [] |}.

Definition someSdk : Sdk :=
  {| cookies := <["secure" := JBool true]> {["sameSite" := JStr "lax"]} |}.

(** An sdk whose cookies options carry [preferLocalStorage]. *)
Definition preferringSdk : Sdk :=
  {| cookies := <["preferLocalStorage" := JBool true]> {["secure" := JBool true]} |}.

Definition freshMeta : gmap string jsval :=
  <["codeVerifier" := JStr "fresh"]> {["state" := JStr "xyz"]}.

Definition sessionOnlyWorld : world :=
  {| localStorage := {["codeVerifier" := JStr ""]};
     sessionStorage := {["codeVerifier" := JStr "from-B"]};
     trace := [] |}.

Definition emptyWorld : world :=
  {| localStorage := ∅; sessionStorage := ∅; trace := [] |}.

Definition blankWorld : world :=
  {| localStorage := {["codeVerifier" := JStr ""]};
     sessionStorage := {["state" := JStr "xyz"]};
     trace := [] |}.

Definition noClientId : TokenParams :=
  {| clientId := None; redirectUri := None;
     authorizationCode := Some (ofString "code123"); interactionCode := None;
     codeVerifier := None |}.

Definition noRedirectUri : TokenParams :=
  {| clientId := Some (ofString "abc"); redirectUri := Some (ofString "");
     authorizationCode := None; interactionCode := None;
     codeVerifier := None |}.

Definition noCode : TokenParams :=
  {| clientId := Some (ofString "abc"); redirectUri := Some (ofString "https://app/cb");
     authorizationCode := None; interactionCode := Some (ofString "");
     codeVerifier := None |}.

Definition noCodeVerifier : TokenParams :=
  {| clientId := Some (ofString "abc"); redirectUri := Some (ofString "https://app/cb");
     authorizationCode := Some (ofString "code123"); interactionCode := None;
     codeVerifier := None |}.

Definition authorizationParams : TokenParams :=
  {| clientId := Some (ofString "abc"); redirectUri := Some (ofString "https://app/cb");
     authorizationCode := Some (ofString "code123"); interactionCode := None;
     codeVerifier := Some (ofString "verifier-1") |}.

(** The body of the token request for [authorizationParams]. *)
Definition authorizationBody : string :=
  "client_id=abc&redirect_uri=https%3A%2F%2Fapp%2Fcb&grant_type=authorization_code&code_verifier=verifier-1&code=code123".

Definition someUrls : CustomUrls := {| tokenUrl := "https://idp/token" |}.

Definition okEndpoint (req : HttpRequest) : promise string :=
  Resolved "tokens".

Definition bothCodes : TokenParams :=
  {| clientId := Some (ofString "abc"); redirectUri := Some (ofString "https://app/cb");
     authorizationCode := Some (ofString "code123"); interactionCode := Some (ofString "ic 9");
     codeVerifier := Some (ofString "verifier-1") |}.

Definition sampleEntropy (i : nat) : Byte.byte :=
  if Nat.even i then Byte.xa7 else Byte.x0f.

(** ** Helpers of the further properties *)

Definition hexLower : string := "0123456789abcdef".

(** The value of a lower-case hex digit. *)
Definition hexValue (c : ascii) : option N :=
  match index 0 (String c "") hexLower with
  | Some i => Some (N.of_nat i)
  | None => None
  end.

(** Reads back two hex digits as a byte. *)
Definition hexDecode (s : string) : option Byte.byte :=
  match s with
  | String hi (String lo EmptyString) =>
      match hexValue hi, hexValue lo with
      | Some h, Some l => Byte.of_N (16 * h + l)
      | _, _ => None
      end
  | _ => None
  end.

(** The number of occurrences of [c] in [s]. *)
Fixpoint countChar (c : ascii) (s : string) : nat :=
  match s with
  | EmptyString => 0
  | String d r => (if Ascii.eqb c d then 1 else 0) + countChar c r
  end.

(** A prefix of 48 unreserved characters, 43 spaces, and a prefix that
    ends with a lone surrogate. *)
Definition longPrefix : string :=
  "my-application-prefix_0123456789.0123456789~abcd".

Definition manySpaces : string :=
  "                                           ".

Definition loneSurrogate : jsstring := [0x61; 0xD800]%N.

(** The fields of [authorizationParams], the client id with a lone
    surrogate. *)
Definition illFormedParams : TokenParams :=
  {| clientId := Some [0x61; 0xDC00]%N;
     redirectUri := Some (ofString "https://app/cb");
     authorizationCode := Some (ofString "code123"); interactionCode := None;
     codeVerifier := Some (ofString "verifier-1") |}.

(** A call of one of the three store operations, and a history of calls
    run in order; an error thrown by a call is caught by the caller, who
    goes on with the next call. *)
Inductive storeOp : Type :=
| OpSave (meta : gmap string jsval)
| OpLoad
| OpClear.

Definition runOp (sdk : Sdk) (op : storeOp) (w : world) : world :=
  match op with
  | OpSave meta => (saveMeta sdk meta w).2
  | OpLoad => (loadMeta sdk w).2
  | OpClear => (clearMeta sdk w).2
  end.

Definition runOps (sdk : Sdk) (ops : list storeOp) (w : world) : world :=
  fold_left (λ w op, runOp sdk op w) ops w.

(** The last call of the history that writes: a save or a clear. *)
Fixpoint lastWrite (ops : list storeOp) : option storeOp :=
  match ops with
  | [] => None
  | op :: rest =>
      match lastWrite rest with
      | Some o => Some o
      | None => match op with
                | OpLoad => None
                | _ => Some op
                end
      end
  end.

Definition sampleHistory : list storeOp :=
  [ OpSave {["codeVerifier" := JStr "first"]}; OpLoad; OpClear; OpLoad;
    OpSave freshMeta; OpLoad; OpLoad ].

(** The keys of the token request. *)
Definition isOAuthKey (k : string) : bool :=
  existsb (String.eqb k)
    [ "client_id"; "redirect_uri"; "grant_type"; "code_verifier";
      "interaction_code"; "code" ].

(** A stand-in digest with 32 bytes of output, for examples. *)
Definition sampleDigest (buffer : list N) : list N :=
  firstn 32 (buffer ++ repeat 0%N 32).

(** The cookies options of the sdk carry a truthy [preferLocalStorage]. *)
Definition prefersLocalStorage (sdk : Sdk) : bool :=
  truthy (getProp (cookies sdk) "preferLocalStorage").

(** Every value of the parameters is free of lone surrogates. *)
Definition allWellFormed (obj : OAuthParams) : bool :=
  forallb (λ p, match snd p with
                | Some v => isWellFormed v
                | None => true
                end) obj.

(** * Properties *)

(** ** The embedding on concrete inputs *)

Example dec2hex_samples :
  dec2hex 0 = "00" ∧ dec2hex 10 = "0a" ∧ dec2hex 167 = "a7" ∧ dec2hex 255 = "ff".
Proof. repeat split. Qed.

Example toString16_samples :
  toString16 0 = "0" ∧ toString16 255 = "ff" ∧ toString16 4096 = "1000".
Proof. repeat split. Qed.

Example getRandomString_samples :
  getRandomString sampleEntropy 5 = "a70fa" ∧ getRandomString sampleEntropy 0 = "".
Proof. split; reflexivity. Qed.

Example encodeURIComponent_samples :
  encodeURIComponent (ofString "https://app/cb?x=1&y=a b") =
    Ok "https%3A%2F%2Fapp%2Fcb%3Fx%3D1%26y%3Da%20b"
  ∧ encodeURIComponent (ofString "a-_.!~*'()z") = Ok "a-_.!~*'()z"
  ∧ encodeURIComponent [0xE9]%N = Ok "%C3%A9"
  ∧ encodeURIComponent [0x20AC]%N = Ok "%E2%82%AC"
  ∧ encodeURIComponent [0xD83D; 0xDE00]%N = Ok "%F0%9F%98%80"
  ∧ encodeURIComponent [0xD800]%N = Throw URIError
  ∧ encodeURIComponent [0xDE00; 0xD83D]%N = Throw URIError
  ∧ encodeURIComponent [0xD83D; 0x61]%N = Throw URIError.
Proof. repeat split. Qed.

Example btoa_samples :
  btoa "Man" = "TWFu" ∧ btoa "Ma" = "TWE=" ∧ btoa "M" = "TQ=="
  ∧ btoa "" = "".
Proof. repeat split. Qed.

Example stringToBase64Url_samples :
  btoa (fromCharCode [251; 255; 190]%N) = "+/++"
  ∧ stringToBase64Url (fromCharCode [251; 255; 190]%N) = "-_--"
  ∧ stringToBase64Url (fromCharCode [251; 255]%N) = "-_8".
Proof. repeat split. Qed.

Example saveMeta_sample :
  saveMeta someSdk freshMeta staleWorld =
    (Ok tt,
     {| localStorage := ∅; sessionStorage := freshMeta;
        trace := [ EvGet TierA; EvWarn warnLocalStorage;
                   EvGet TierB; EvWarn warnSessionStorage;
                   EvClear TierB; EvClear TierA; EvSet TierB freshMeta ] |}).
Proof. reflexivity. Qed.

Example generateVerifier_samples :
  generateVerifier sampleEntropy (Some loneSurrogate) = Throw URIError
  ∧ generateVerifier sampleEntropy (Some [0x20AC]%N)
    = Ok ("%E2%82%AC" ++ "a70fa70fa70fa70fa70fa70fa70fa70fa70fa70fa7").
Proof. split; reflexivity. Qed.

(** Closes a goal [x ∉ [y1; ...; yn]] when [x] differs from every [yi] by
    its constructors. *)
Ltac not_listed :=
  rewrite ?elem_of_cons, elem_of_nil;
  let H := fresh "H" in
  intros H; repeat destruct H as [H|H]; discriminate || contradiction.

(** ** Tier resolution *)

Lemma getStorage_prefer_local (sdk : Sdk) :
  getStorage sdk (Some {["preferLocalStorage" := JBool true]}) = TierA.
Proof.
  unfold getStorage, getPKCEStorage, getProp, objectAssign.
  rewrite (lookup_union_Some_l _ _ _ (JBool true)); [reflexivity|].
  apply lookup_singleton_eq.
Qed.

Lemma getStorage_prefer_session (sdk : Sdk) :
  getStorage sdk (Some {["preferLocalStorage" := JBool false]}) = TierB.
Proof.
  unfold getStorage, getPKCEStorage, getProp, objectAssign.
  rewrite (lookup_union_Some_l _ _ _ (JBool false)); [reflexivity|].
  apply lookup_singleton_eq.
Qed.

(** Without options, the cookies of the sdk decide. *)
Lemma getStorage_default (sdk : Sdk) :
  getStorage sdk None =
    if truthy (getProp (cookies sdk) "preferLocalStorage")
    then TierA else TierB.
Proof. reflexivity. Qed.

(** ** What each store operation does to the world *)

Lemma clearMeta_run (sdk : Sdk) (w : world) :
  clearMeta sdk w =
    (Ok tt,
     {| localStorage := ∅;
        sessionStorage := match getStorage sdk None with
                          | TierA => sessionStorage w
                          | TierB => ∅
                          end;
        trace := trace w ++ [EvClear (getStorage sdk None); EvClear TierA] |}).
Proof.
  unfold clearMeta. rewrite getStorage_prefer_local.
  destruct (getStorage sdk None);
    unfold mbind, M_bind, PKCEStorage.clearStorage, record, writeTier; simpl;
    now rewrite <- app_assoc.
Qed.

Lemma saveMeta_run (sdk : Sdk) (meta : gmap string jsval) (w : world) :
  saveMeta sdk meta w =
    (Ok tt,
     {| localStorage := match getStorage sdk None with
                        | TierA => meta
                        | TierB => ∅
                        end;
        sessionStorage := match getStorage sdk None with
                          | TierA => sessionStorage w
                          | TierB => meta
                          end;
        trace := trace w ++ saveMetaTrace sdk w meta |}).
Proof.
  unfold saveMeta, saveMetaTrace, saveMetaInspection, hasCodeVerifier.
  rewrite getStorage_prefer_local.
  destruct (getStorage sdk None) eqn:Htier.
  all: unfold mbind, M_bind, PKCEStorage.getStorage, warn, emit, mret, M_ret.
  all: cbn [readTier].
  all: destruct (truthy (getProp (localStorage w) "codeVerifier")) eqn:HA;
    cbn [record readTier localStorage sessionStorage trace];
    rewrite ?HA;
    try destruct (truthy (getProp (sessionStorage w) "codeVerifier")).
  all: rewrite clearMeta_run, Htier;
    unfold PKCEStorage.setStorage, record, writeTier;
    cbn [localStorage sessionStorage trace];
    repeat rewrite <- app_assoc; reflexivity.
Qed.

Lemma loadMeta_run (sdk : Sdk) (w : world) :
  loadMeta sdk w =
    if hasCodeVerifier (localStorage w) then
      (Ok (localStorage w), record (EvGet TierA) w)
    else if hasCodeVerifier (sessionStorage w) then
      (Ok (sessionStorage w), record (EvGet TierB) (record (EvGet TierA) w))
    else
      (Throw (AuthSdkError errNoPKCEState),
       record (EvGet TierB) (record (EvGet TierA) w)).
Proof.
  unfold loadMeta.
  rewrite getStorage_prefer_session, getStorage_prefer_local.
  unfold mbind, M_bind, PKCEStorage.getStorage, hasCodeVerifier; simpl.
  destruct (truthy (getProp (localStorage w) "codeVerifier")); simpl;
    [reflexivity|].
  destruct (truthy (getProp (sessionStorage w) "codeVerifier")); reflexivity.
Qed.

(** ** The flow metadata store: claims *)

Lemma hasCodeVerifier_empty : hasCodeVerifier ∅ = false.
Proof. reflexivity. Qed.

Lemma hasCodeVerifier_string (obj : gmap string jsval) (v : string) :
  obj !! "codeVerifier" = Some (JStr v) → v ≠ "" → hasCodeVerifier obj = true.
Proof.
  intros Hv Hne. unfold hasCodeVerifier, getProp. rewrite Hv. simpl.
  destruct v; [contradiction | reflexivity].
Qed.

(** C1. Round trip: from every prior state of the two tiers, [saveMeta] of
    a record [meta] that holds a code verifier [v] (a non-empty string, as
    the test [obj.codeVerifier] of the store takes it) returns without
    throwing, and the [loadMeta] that follows returns a record whose
    [codeVerifier] is [v] and that has every field of [meta]: it is
    [meta] itself, whatever stale record tier A held before. *)
Theorem saveMeta_loadMeta_roundtrip (sdk : Sdk) (w : world)
    (meta : gmap string jsval) (v : string) :
  meta !! "codeVerifier" = Some (JStr v) →
  v ≠ "" →
  ∃ (w1 w2 : world) (r : gmap string jsval),
    saveMeta sdk meta w = (Ok tt, w1)
    ∧ loadMeta sdk w1 = (Ok r, w2)
    ∧ getProp r "codeVerifier" = JStr v
    ∧ (∀ k x, meta !! k = Some x → r !! k = Some x)
    ∧ r = meta.
Proof.
  intros Hv Hne.
  pose proof (hasCodeVerifier_string meta v Hv Hne) as Hmeta.
  rewrite saveMeta_run.
  destruct (getStorage sdk None);
    eexists _, _, meta; (split; [reflexivity|]);
    rewrite loadMeta_run; cbn [localStorage sessionStorage];
    rewrite ?hasCodeVerifier_empty, Hmeta;
    (split; [reflexivity|]);
    (split; [unfold getProp; now rewrite Hv|]); split; auto.
Qed.

Lemma saveMeta_loadMeta_roundtrip_witness :
  ∃ (w1 w2 : world) (r : gmap string jsval),
    saveMeta someSdk freshMeta staleWorld = (Ok tt, w1)
    ∧ loadMeta someSdk w1 = (Ok r, w2)
    ∧ getProp r "codeVerifier" = JStr "fresh"
    ∧ (∀ k x, freshMeta !! k = Some x → r !! k = Some x)
    ∧ r = freshMeta.
Proof.
  apply (saveMeta_loadMeta_roundtrip someSdk staleWorld freshMeta "fresh").
  - reflexivity.
  - discriminate.
Defined.

(** C2. [loadMeta] reads tier A first and returns its record when that
    record holds a code verifier, without reading tier B; otherwise it
    reads tier B and returns its record when that one holds a code
    verifier; otherwise it throws the error of the missing PKCE state,
    which differs from the four validation errors of the token exchange
    and from every transport error. *)
Theorem loadMeta_tier_order (sdk : Sdk) (w : world) :
  (hasCodeVerifier (localStorage w) = true →
     loadMeta sdk w = (Ok (localStorage w), record (EvGet TierA) w))
  ∧ (hasCodeVerifier (localStorage w) = false →
     hasCodeVerifier (sessionStorage w) = true →
     loadMeta sdk w =
       (Ok (sessionStorage w), record (EvGet TierB) (record (EvGet TierA) w)))
  ∧ (hasCodeVerifier (localStorage w) = false →
     hasCodeVerifier (sessionStorage w) = false →
     loadMeta sdk w =
       (Throw (AuthSdkError errNoPKCEState),
        record (EvGet TierB) (record (EvGet TierA) w)))
  ∧ errNoPKCEState ≠ errClientId
  ∧ errNoPKCEState ≠ errRedirectUri
  ∧ errNoPKCEState ≠ errCode
  ∧ errNoPKCEState ≠ errCodeVerifier
  ∧ (∀ detail, AuthSdkError errNoPKCEState ≠ TransportError detail).
Proof.
  rewrite loadMeta_run.
  repeat split; try discriminate.
  - now intros ->.
  - now intros -> ->.
  - now intros -> ->.
Qed.

Lemma loadMeta_tier_order_witness :
  loadMeta someSdk staleWorld =
    (Ok (localStorage staleWorld), record (EvGet TierA) staleWorld)
  ∧ loadMeta someSdk sessionOnlyWorld =
    (Ok (sessionStorage sessionOnlyWorld),
     record (EvGet TierB) (record (EvGet TierA) sessionOnlyWorld))
  ∧ loadMeta someSdk emptyWorld =
    (Throw (AuthSdkError errNoPKCEState),
     record (EvGet TierB) (record (EvGet TierA) emptyWorld)).
Proof.
  split; [|split].
  - apply (proj1 (loadMeta_tier_order someSdk staleWorld)). reflexivity.
  - apply (proj1 (proj2 (loadMeta_tier_order someSdk sessionOnlyWorld)));
      reflexivity.
  - apply (proj1 (proj2 (proj2 (loadMeta_tier_order someSdk emptyWorld))));
      reflexivity.
Defined.

(** C5. The invariant is not established for every sdk.  [saveMeta] and
    [clearMeta] address tier B through [getStorage(sdk)], which resolves
    to tier A when [sdk.options.cookies] carries [preferLocalStorage];
    [loadMeta] alone passes [preferLocalStorage: false].  With such an
    sdk, from a state that has one record, in tier B, [saveMeta] reads
    and clears tier A twice and writes the new record to tier A: the
    record of tier B survives and two records exist afterwards. *)
Theorem saveMeta_cookie_preference_keeps_stale_record :
  let w' := (saveMeta preferringSdk freshMeta sessionOnlyWorld).2 in
  atMostOneRecord sessionOnlyWorld = true
  ∧ (saveMeta preferringSdk freshMeta sessionOnlyWorld).1 = Ok tt
  ∧ trace w' = [ EvGet TierA; EvGet TierA;
                 EvClear TierA; EvClear TierA; EvSet TierA freshMeta ]
  ∧ localStorage w' = freshMeta
  ∧ sessionStorage w' = sessionStorage sessionOnlyWorld
  ∧ recordCount w' = 2
  ∧ atMostOneRecord w' = false.
Proof. repeat split. Qed.

(** C6. [clearMeta] does not clear tier B for every sdk: with
    [preferLocalStorage] among [sdk.options.cookies] it clears tier A
    twice, the record of tier B stays, and the [loadMeta] that follows
    returns that record instead of throwing. *)
Theorem clearMeta_cookie_preference_skips_session :
  let w' := (clearMeta preferringSdk staleWorld).2 in
  (clearMeta preferringSdk staleWorld).1 = Ok tt
  ∧ trace w' = [EvClear TierA; EvClear TierA]
  ∧ localStorage w' = ∅
  ∧ sessionStorage w' = sessionStorage staleWorld
  ∧ (loadMeta preferringSdk w').1 = Ok (sessionStorage staleWorld).
Proof. repeat split. Qed.

(** C9. [loadMeta] is a pure read of the two tiers: whether it returns or
    throws, both tiers hold afterwards what they held before, and a
    second [loadMeta] gives the same outcome as the first. *)
Theorem loadMeta_frame (sdk : Sdk) (w : world) :
  let w1 := (loadMeta sdk w).2 in
  localStorage w1 = localStorage w
  ∧ sessionStorage w1 = sessionStorage w
  ∧ (loadMeta sdk w1).1 = (loadMeta sdk w).1.
Proof.
  intros w1. subst w1. rewrite !loadMeta_run.
  destruct (hasCodeVerifier (localStorage w)) eqn:HA;
    [|destruct (hasCodeVerifier (sessionStorage w)) eqn:HB];
    cbn [fst snd record localStorage sessionStorage];
    rewrite ?HA, ?HB; repeat split.
Qed.

Lemma blankVerifier_not_has (obj : gmap string jsval) :
  blankVerifier obj → hasCodeVerifier obj = false.
Proof.
  unfold hasCodeVerifier, getProp. now intros [-> | ->].
Qed.

Lemma saveMetaTrace_events (sdk : Sdk) (w : world) (meta : gmap string jsval)
    (e : event) :
  e ∈ saveMetaTrace sdk w meta ↔
    e = EvGet TierA ∨ e = EvGet (getStorage sdk None)
    ∨ e = EvClear (getStorage sdk None) ∨ e = EvClear TierA
    ∨ e = EvSet (getStorage sdk None) meta
    ∨ (e = EvWarn warnLocalStorage ∧ hasCodeVerifier (localStorage w) = true)
    ∨ (e = EvWarn warnSessionStorage
       ∧ hasCodeVerifier (readTier (getStorage sdk None) w) = true).
Proof.
  unfold saveMetaTrace, saveMetaInspection.
  destruct (hasCodeVerifier (localStorage w)),
           (hasCodeVerifier (readTier (getStorage sdk None) w)); cbn [app];
    rewrite !elem_of_cons, elem_of_nil; intuition congruence.
Qed.

(** The calls of [saveMeta], read off the world it leaves. *)
Lemma saveMeta_calls (sdk : Sdk) (meta : gmap string jsval) (w : world)
    (calls : list event) :
  trace (saveMeta sdk meta w).2 = (trace w ++ calls)%list →
  calls = saveMetaTrace sdk w meta.
Proof.
  rewrite saveMeta_run. cbn [snd trace]. intros H.
  now apply app_inv_head in H.
Qed.

(** C10. A stored record whose [codeVerifier] is absent or empty counts as
    no record: in tier A, [loadMeta] passes over it and gives the outcome
    it gives with tier A empty, the record of tier B when that one holds
    a code verifier; with such records in both tiers it throws the error
    of the missing PKCE state.  [saveMeta] emits no warning on reading
    such a record: none for tier A when the record of tier A is one, none
    for the tier [getStorage(sdk)] resolves to when its record is one,
    and no warning at all when both tiers hold such records. *)
Theorem blank_verifier_is_no_record (sdk : Sdk) (w : world)
    (meta : gmap string jsval) :
  (blankVerifier (localStorage w) →
     (loadMeta sdk w).1 = (loadMeta sdk (setLocalStorage ∅ w)).1
     ∧ (hasCodeVerifier (sessionStorage w) = true →
        (loadMeta sdk w).1 = Ok (sessionStorage w))
     ∧ (∀ calls, trace (saveMeta sdk meta w).2 = (trace w ++ calls)%list →
          EvWarn warnLocalStorage ∉ calls))
  ∧ (blankVerifier (readTier (getStorage sdk None) w) →
     ∀ calls, trace (saveMeta sdk meta w).2 = (trace w ++ calls)%list →
       EvWarn warnSessionStorage ∉ calls)
  ∧ (blankVerifier (localStorage w) → blankVerifier (sessionStorage w) →
     (loadMeta sdk w).1 = Throw (AuthSdkError errNoPKCEState)
     ∧ (∀ calls, trace (saveMeta sdk meta w).2 = (trace w ++ calls)%list →
          ∀ msg, EvWarn msg ∉ calls)).
Proof.
  split; [|split].
  - intros HA%blankVerifier_not_has.
    rewrite !loadMeta_run.
    cbn [setLocalStorage writeTier localStorage sessionStorage].
    rewrite HA, hasCodeVerifier_empty.
    split; [now destruct (hasCodeVerifier (sessionStorage w))|].
    split; [now intros ->|].
    intros calls ->%saveMeta_calls.
    intros [H|[H|[H|[H|[H|[[_ H]|[H _]]]]]]]%saveMetaTrace_events;
      first [congruence | discriminate H].
  - intros HB%blankVerifier_not_has calls ->%saveMeta_calls.
    intros [H|[H|[H|[H|[H|[[H _]|[_ H]]]]]]]%saveMetaTrace_events;
      first [congruence | discriminate H].
  - intros HA%blankVerifier_not_has HB%blankVerifier_not_has.
    rewrite loadMeta_run, HA, HB. split; [reflexivity|].
    intros calls ->%saveMeta_calls msg.
    intros [H|[H|[H|[H|[H|[[_ H]|[_ H]]]]]]]%saveMetaTrace_events;
      try congruence.
    destruct (getStorage sdk None); cbn [readTier] in H; congruence.
Qed.

Lemma blank_verifier_is_no_record_witness :
  (loadMeta someSdk sessionOnlyWorld).1 = Ok (sessionStorage sessionOnlyWorld)
  ∧ (EvWarn warnSessionStorage
       ∉ [ EvGet TierA; EvGet TierB;
           EvClear TierB; EvClear TierA; EvSet TierB freshMeta ])
  ∧ (loadMeta someSdk blankWorld).1 = Throw (AuthSdkError errNoPKCEState).
Proof.
  split; [|split].
  - apply (proj1 (blank_verifier_is_no_record someSdk sessionOnlyWorld freshMeta)).
    + right. reflexivity.
    + reflexivity.
  - apply (proj1 (proj2 (blank_verifier_is_no_record someSdk blankWorld freshMeta))).
    + left. reflexivity.
    + reflexivity.
  - apply (proj2 (proj2 (blank_verifier_is_no_record someSdk blankWorld freshMeta))).
    + right. reflexivity.
    + left. reflexivity.
Defined.

(** ** The token exchanger: claims *)

Lemma validateOptions_run (options : TokenParams) (w : world) :
  validateOptions options w =
    if missing (clientId options) then
      (Throw (AuthSdkError errClientId), w)
    else if missing (redirectUri options) then
      (Throw (AuthSdkError errRedirectUri), w)
    else if missing (authorizationCode options)
            && missing (interactionCode options) then
      (Throw (AuthSdkError errCode), w)
    else if missing (codeVerifier options) then
      (Throw (AuthSdkError errCodeVerifier), w)
    else (Ok tt, w).
Proof.
  unfold validateOptions, missing, mbind, M_bind, throw, mret, M_ret.
  destruct (truthyField (clientId options)); [|reflexivity].
  destruct (truthyField (redirectUri options)); [|reflexivity].
  destruct (truthyField (authorizationCode options));
    destruct (truthyField (interactionCode options));
    try reflexivity;
    destruct (truthyField (codeVerifier options)); reflexivity.
Qed.

Lemma present_field (f : option jsstring) :
  missing f = false → ∃ s, f = Some s ∧ s ≠ [].
Proof.
  destruct f as [[|c s]|]; try discriminate.
  intros _. now exists (c :: s).
Qed.

Section ExchangeProperties.

Variable OAuthResponse : Type.
Variable endpoint : HttpRequest → promise OAuthResponse.

Lemma exchangeCodeForTokens_run (sdk : Sdk) (options : TokenParams)
    (urls : CustomUrls) (w : world) :
  exchangeCodeForTokens OAuthResponse endpoint sdk options urls w =
    match validateOptions options w with
    | (Ok _, w') =>
        match getPostData options with
        | Ok data =>
            (Ok (endpoint (tokenRequest data urls)),
             record (EvHttp (tokenRequest data urls)) w')
        | Throw e => (Throw e, w')
        end
    | (Throw e, w') => (Throw e, w')
    end.
Proof.
  unfold exchangeCodeForTokens, mbind, M_bind.
  destruct (validateOptions options w) as [[[]|e] w']; [|reflexivity].
  now destruct (getPostData options).
Qed.

(** C3. [exchangeCodeForTokens] checks its parameters in a fixed order and
    throws the error of the first check that fails: client id, then
    redirect URI, then the two codes together, then code verifier.  The
    four errors are pairwise different.  A call that throws leaves the
    world as it was: no HTTP request has been issued.  A call that passes
    the four checks issues exactly one request, with the body
    [getPostData] returns; when [getPostData] throws, the call throws
    that error and leaves the world as it was. *)
Theorem exchange_validation_order (sdk : Sdk) (options : TokenParams)
    (urls : CustomUrls) (w : world) :
  let run := exchangeCodeForTokens OAuthResponse endpoint sdk options urls w in
  (missing (clientId options) = true →
     run = (Throw (AuthSdkError errClientId), w))
  ∧ (missing (clientId options) = false →
     missing (redirectUri options) = true →
     run = (Throw (AuthSdkError errRedirectUri), w))
  ∧ (missing (clientId options) = false →
     missing (redirectUri options) = false →
     missing (authorizationCode options) = true →
     missing (interactionCode options) = true →
     run = (Throw (AuthSdkError errCode), w))
  ∧ (missing (clientId options) = false →
     missing (redirectUri options) = false →
     missing (authorizationCode options) && missing (interactionCode options)
       = false →
     missing (codeVerifier options) = true →
     run = (Throw (AuthSdkError errCodeVerifier), w))
  ∧ (missing (clientId options) = false →
     missing (redirectUri options) = false →
     missing (authorizationCode options) && missing (interactionCode options)
       = false →
     missing (codeVerifier options) = false →
     run = match getPostData options with
           | Ok data =>
               (Ok (endpoint (tokenRequest data urls)),
                record (EvHttp (tokenRequest data urls)) w)
           | Throw e => (Throw e, w)
           end)
  ∧ NoDup [errClientId; errRedirectUri; errCode; errCodeVerifier].
Proof.
  intros run. subst run.
  rewrite exchangeCodeForTokens_run, validateOptions_run.
  repeat split.
  - now intros ->.
  - now intros -> ->.
  - now intros -> -> -> ->.
  - now intros -> -> -> ->.
  - now intros -> -> -> ->.
  - repeat (constructor; [not_listed|]). constructor.
Qed.

End ExchangeProperties.

Lemma exchange_validation_order_witness :
  exchangeCodeForTokens string okEndpoint someSdk noClientId someUrls emptyWorld
    = (Throw (AuthSdkError errClientId), emptyWorld)
  ∧ exchangeCodeForTokens string okEndpoint someSdk noRedirectUri someUrls emptyWorld
    = (Throw (AuthSdkError errRedirectUri), emptyWorld)
  ∧ exchangeCodeForTokens string okEndpoint someSdk noCode someUrls emptyWorld
    = (Throw (AuthSdkError errCode), emptyWorld)
  ∧ exchangeCodeForTokens string okEndpoint someSdk noCodeVerifier someUrls emptyWorld
    = (Throw (AuthSdkError errCodeVerifier), emptyWorld)
  ∧ exchangeCodeForTokens string okEndpoint someSdk authorizationParams someUrls
      emptyWorld
    = (Ok (Resolved "tokens"),
       record (EvHttp (tokenRequest authorizationBody someUrls)) emptyWorld).
Proof.
  split; [|split; [|split; [|split]]].
  - apply (proj1 (exchange_validation_order string okEndpoint someSdk
                    noClientId someUrls emptyWorld)); reflexivity.
  - apply (proj1 (proj2 (exchange_validation_order string okEndpoint someSdk
                    noRedirectUri someUrls emptyWorld))); reflexivity.
  - apply (proj1 (proj2 (proj2 (exchange_validation_order string okEndpoint
                    someSdk noCode someUrls emptyWorld)))); reflexivity.
  - apply (proj1 (proj2 (proj2 (proj2 (exchange_validation_order string
                    okEndpoint someSdk noCodeVerifier someUrls emptyWorld)))));
      reflexivity.
  - apply (proj1 (proj2 (proj2 (proj2 (proj2 (exchange_validation_order string
                    okEndpoint someSdk authorizationParams someUrls
                    emptyWorld)))))); reflexivity.
Defined.

Lemma substring_all (s : string) : substring 0 (String.length s) s = s.
Proof. induction s as [|c s IH]; simpl; [reflexivity | now rewrite IH]. Qed.

Lemma sliceFrom_1 (c : ascii) (s : string) : sliceFrom (String c s) 1 = s.
Proof.
  unfold sliceFrom. simpl. rewrite Nat.sub_0_r. apply substring_all.
Qed.

Lemma truthy_present (s : jsstring) :
  missing (Some s) = false → truthyField (Some s) = true.
Proof. unfold missing. now destruct (truthyField (Some s)). Qed.

Lemma getPostParams_interaction (c r cv ic : jsstring) (ac : option jsstring) :
  missing (Some ic) = false →
  getPostParams {| clientId := Some c; redirectUri := Some r;
                   authorizationCode := ac; interactionCode := Some ic;
                   codeVerifier := Some cv |} =
    [ ("client_id", Some c); ("redirect_uri", Some r);
      ("grant_type", Some (ofString "interaction_code"));
      ("code_verifier", Some cv); ("interaction_code", Some ic) ].
Proof.
  intros Hic%truthy_present. unfold getPostParams.
  cbn [interactionCode clientId redirectUri codeVerifier authorizationCode].
  now rewrite Hic.
Qed.

Lemma getPostParams_authorization (c r cv ac : jsstring) (ic : option jsstring) :
  missing ic = true →
  missing (Some ac) = false →
  getPostParams {| clientId := Some c; redirectUri := Some r;
                   authorizationCode := Some ac; interactionCode := ic;
                   codeVerifier := Some cv |} =
    [ ("client_id", Some c); ("redirect_uri", Some r);
      ("grant_type", Some (ofString "authorization_code"));
      ("code_verifier", Some cv); ("code", Some ac) ].
Proof.
  intros Hic Hac%truthy_present. unfold getPostParams.
  cbn [interactionCode clientId redirectUri codeVerifier authorizationCode].
  unfold missing in Hic. apply negb_true_iff in Hic.
  now rewrite Hic, Hac.
Qed.

Lemma encode_grant_types :
  encodeURIComponent (ofString "interaction_code") = Ok "interaction_code"
  ∧ encodeURIComponent (ofString "authorization_code")
    = Ok "authorization_code".
Proof. split; reflexivity. Qed.

Lemma append_assoc (s1 s2 s3 : string) :
  (s1 ++ s2) ++ s3 = s1 ++ (s2 ++ s3).
Proof.
  induction s1 as [|c s1 IH]; [reflexivity|].
  change (String c ((s1 ++ s2) ++ s3) = String c (s1 ++ (s2 ++ s3))).
  now rewrite IH.
Qed.

(** The form encoding of five parameters that have a value. *)
Lemma form_encoding (k1 k2 k3 k4 k5 : string) (v1 v2 v3 v4 v5 : jsstring) :
  (query ← toQueryString
     [ (k1, Some v1); (k2, Some v2); (k3, Some v3); (k4, Some v4);
       (k5, Some v5) ];
   mret (sliceFrom query 1)) =
    (e1 ← encodeURIComponent v1;
     e2 ← encodeURIComponent v2;
     e3 ← encodeURIComponent v3;
     e4 ← encodeURIComponent v4;
     e5 ← encodeURIComponent v5;
     mret (k1 ++ "=" ++ e1
           ++ "&" ++ k2 ++ "=" ++ e2
           ++ "&" ++ k3 ++ "=" ++ e3
           ++ "&" ++ k4 ++ "=" ++ e4
           ++ "&" ++ k5 ++ "=" ++ e5)).
Proof.
  unfold toQueryString. cbn [encodePairs].
  destruct (encodeURIComponent v1) as [e1|]; [|reflexivity].
  destruct (encodeURIComponent v2) as [e2|]; [|reflexivity].
  destruct (encodeURIComponent v3) as [e3|]; [|reflexivity].
  destruct (encodeURIComponent v4) as [e4|]; [|reflexivity].
  destruct (encodeURIComponent v5) as [e5|]; [|reflexivity].
  unfold mbind, result_bind, mret, result_ret. cbn [join]. f_equal.
  change ("?" ++ ?x) with (String "?" x). rewrite sliceFrom_1.
  now rewrite !append_assoc.
Qed.

(** C4. For parameters that pass [validateOptions], the token request
    has [client_id], [redirect_uri], [grant_type] and [code_verifier];
    when [interactionCode] is set it has [interaction_code], its
    [grant_type] is [interaction_code] and it has no [code], whether or
    not [authorizationCode] is set; otherwise it has [code] and its
    [grant_type] is [authorization_code]; every property of the
    parameters has a value; and the body is their form encoding, each
    value through [encodeURIComponent], whose error it throws. *)
Theorem token_request_body (options : TokenParams) (w w' : world) :
  validateOptions options w = (Ok tt, w') →
  let params := getPostParams options in
  ∃ c r cv : jsstring,
    clientId options = Some c
    ∧ redirectUri options = Some r
    ∧ codeVerifier options = Some cv
    ∧ readProp "client_id" params = Some c
    ∧ readProp "redirect_uri" params = Some r
    ∧ readProp "code_verifier" params = Some cv
    ∧ (∀ k v, (k, v) ∈ params → is_Some v)
    ∧ (missing (interactionCode options) = false →
       ∃ ic, interactionCode options = Some ic
         ∧ readProp "interaction_code" params = Some ic
         ∧ readProp "grant_type" params = Some (ofString "interaction_code")
         ∧ hasOwnProperty "code" params = false
         ∧ getPostData options =
             (ec ← encodeURIComponent c;
              er ← encodeURIComponent r;
              ecv ← encodeURIComponent cv;
              eic ← encodeURIComponent ic;
              mret ("client_id=" ++ ec
                    ++ "&redirect_uri=" ++ er
                    ++ "&grant_type=interaction_code"
                    ++ "&code_verifier=" ++ ecv
                    ++ "&interaction_code=" ++ eic)))
    ∧ (missing (interactionCode options) = true →
       ∃ ac, authorizationCode options = Some ac
         ∧ readProp "code" params = Some ac
         ∧ readProp "grant_type" params = Some (ofString "authorization_code")
         ∧ hasOwnProperty "interaction_code" params = false
         ∧ getPostData options =
             (ec ← encodeURIComponent c;
              er ← encodeURIComponent r;
              ecv ← encodeURIComponent cv;
              eac ← encodeURIComponent ac;
              mret ("client_id=" ++ ec
                    ++ "&redirect_uri=" ++ er
                    ++ "&grant_type=authorization_code"
                    ++ "&code_verifier=" ++ ecv
                    ++ "&code=" ++ eac))).
Proof.
  rewrite validateOptions_run.
  destruct (missing (clientId options)) eqn:Hc; [discriminate|].
  destruct (missing (redirectUri options)) eqn:Hr; [discriminate|].
  destruct (missing (authorizationCode options)
            && missing (interactionCode options)) eqn:Hcode; [discriminate|].
  destruct (missing (codeVerifier options)) eqn:Hv; [discriminate|].
  intros _ params. subst params.
  destruct (present_field _ Hc) as (c & Ec & _).
  destruct (present_field _ Hr) as (r & Er & _).
  destruct (present_field _ Hv) as (cv & Ev & _).
  exists c, r, cv.
  destruct options as [ci ru ac ic v].
  cbn [clientId redirectUri authorizationCode interactionCode codeVerifier] in *.
  subst ci ru v.
  destruct (missing ic) eqn:Hic.
  - rewrite andb_true_r in Hcode.
    destruct (present_field _ Hcode) as (a & -> & _).
    unfold getPostData.
    rewrite (getPostParams_authorization c r cv a ic Hic Hcode), form_encoding.
    rewrite (proj2 encode_grant_types).
    split; [reflexivity|]. split; [reflexivity|]. split; [reflexivity|].
    split; [reflexivity|]. split; [reflexivity|]. split; [reflexivity|].
    split; [|split; [discriminate|]].
    + intros k v Hin.
      repeat (apply elem_of_cons in Hin as [Hin|Hin]; [inversion Hin; eauto|]).
      now apply elem_of_nil in Hin.
    + intros _. exists a. repeat split.
  - destruct (present_field _ Hic) as (i & -> & _).
    unfold getPostData.
    rewrite (getPostParams_interaction c r cv i ac Hic), form_encoding.
    rewrite (proj1 encode_grant_types).
    split; [reflexivity|]. split; [reflexivity|]. split; [reflexivity|].
    split; [reflexivity|]. split; [reflexivity|]. split; [reflexivity|].
    split; [|split; [|discriminate]].
    + intros k v Hin.
      repeat (apply elem_of_cons in Hin as [Hin|Hin]; [inversion Hin; eauto|]).
      now apply elem_of_nil in Hin.
    + intros _. exists i. repeat split.
Qed.

Lemma token_request_body_witness :
  getPostData bothCodes =
    Ok "client_id=abc&redirect_uri=https%3A%2F%2Fapp%2Fcb&grant_type=interaction_code&code_verifier=verifier-1&interaction_code=ic%209"
  ∧ hasOwnProperty "code" (getPostParams bothCodes) = false
  ∧ getPostData authorizationParams = Ok authorizationBody.
Proof.
  destruct (token_request_body bothCodes emptyWorld emptyWorld eq_refl)
    as (c & r & cv & Ec & Er & Ev & _ & _ & _ & _ & Hi & _).
  destruct (Hi eq_refl) as (ic & Ei & _ & _ & Hno & Hbody).
  destruct (token_request_body authorizationParams emptyWorld emptyWorld eq_refl)
    as (c' & r' & cv' & Ec' & Er' & Ev' & _ & _ & _ & _ & _ & Ha).
  destruct (Ha eq_refl) as (ac & Ea & _ & _ & _ & Hbody').
  injection Ec as <-. injection Er as <-. injection Ev as <-.
  injection Ei as <-.
  injection Ec' as <-. injection Er' as <-. injection Ev' as <-.
  injection Ea as <-.
  split; [exact Hbody|]. split; [exact Hno | exact Hbody'].
Defined.

(** ** The verifier generator: claims *)

Lemma length_append (s1 s2 : string) :
  String.length (s1 ++ s2) = String.length s1 + String.length s2.
Proof.
  induction s1 as [|c s1 IH]; [reflexivity|].
  change (S (String.length (s1 ++ s2)) = S (String.length s1 + String.length s2)).
  now rewrite IH.
Qed.

Lemma allChars_append (p : ascii → bool) (s1 s2 : string) :
  allChars p (s1 ++ s2) = allChars p s1 && allChars p s2.
Proof.
  induction s1 as [|c s1 IH]; [reflexivity|].
  change (p c && allChars p (s1 ++ s2) = p c && allChars p s1 && allChars p s2).
  now rewrite IH, andb_assoc.
Qed.

Lemma allChars_impl (p q : ascii → bool) (s : string) :
  (∀ c, p c = true → q c = true) → allChars p s = true → allChars q s = true.
Proof.
  intros Hpq. induction s as [|c s IH]; [reflexivity|]. simpl.
  intros [Hc Hs]%andb_true_iff. now rewrite (Hpq c Hc), IH.
Qed.

Lemma length_substring_0 (n : nat) (s : string) :
  String.length (substring 0 n s) = Nat.min n (String.length s).
Proof.
  revert n. induction s as [|c s IH]; intros [|n]; simpl; try reflexivity.
  now rewrite IH.
Qed.

Lemma allChars_substring_0 (p : ascii → bool) (n : nat) (s : string) :
  allChars p s = true → allChars p (substring 0 n s) = true.
Proof.
  revert n. induction s as [|c s IH]; intros [|n]; simpl; try reflexivity.
  intros [Hc Hs]%andb_true_iff. now rewrite Hc, IH.
Qed.

Lemma substring_0_all (n : nat) (s : string) :
  (String.length s ≤ n)%nat → substring 0 n s = s.
Proof.
  revert n. induction s as [|c s IH]; intros [|n]; simpl; try reflexivity.
  - lia.
  - intros H. rewrite IH; [reflexivity | lia].
Qed.

Lemma slice_0_length (s : string) (n : nat) :
  String.length (slice s 0 n) = Nat.min n (String.length s).
Proof. unfold slice. rewrite Nat.sub_0_r. apply length_substring_0. Qed.

Lemma slice_0_allChars (p : ascii → bool) (s : string) (n : nat) :
  allChars p s = true → allChars p (slice s 0 n) = true.
Proof. unfold slice. rewrite Nat.sub_0_r. apply allChars_substring_0. Qed.

Lemma slice_0_all (s : string) (n : nat) :
  (String.length s ≤ n)%nat → slice s 0 n = s.
Proof. unfold slice. rewrite Nat.sub_0_r. apply substring_0_all. Qed.

(** *** Hexadecimal bytes *)

Lemma dec2hex_byte (b : Byte.byte) :
  String.length (dec2hex (Byte.to_N b)) = 2
  ∧ allChars isHexDigit (dec2hex (Byte.to_N b)) = true.
Proof. destruct b; split; reflexivity. Qed.

Lemma join_hex (bytes : list Byte.byte) :
  String.length (join "" (map (λ b, dec2hex (Byte.to_N b)) bytes))
    = 2 * length bytes
  ∧ allChars isHexDigit (join "" (map (λ b, dec2hex (Byte.to_N b)) bytes))
    = true.
Proof.
  induction bytes as [|b [|b' bytes] IH].
  - split; reflexivity.
  - exact (dec2hex_byte b).
  - destruct IH as [IHlen IHhex]. destruct (dec2hex_byte b) as [Hlen Hhex].
    change (join "" (map (λ b0, dec2hex (Byte.to_N b0)) (b :: b' :: bytes)))
      with (dec2hex (Byte.to_N b) ++ "" ++
            join "" (map (λ b0, dec2hex (Byte.to_N b0)) (b' :: bytes))).
    change ("" ++ ?x) with x.
    rewrite length_append, allChars_append, Hlen, Hhex, IHlen, IHhex.
    split; [simpl; lia | reflexivity].
Qed.

Lemma div2_covers (n : nat) : (n ≤ 2 * Nat.div2 (n + 1))%nat.
Proof.
  destruct (Nat.Even_or_Odd (n + 1)) as [[k Hk]|[k Hk]]; rewrite Hk.
  - rewrite Nat.div2_double. lia.
  - replace (2 * k + 1) with (S (2 * k)) by lia.
    rewrite Nat.div2_succ_double. lia.
Qed.

Section VerifierProperties.

Variable entropy : nat → Byte.byte.

Lemma getRandomString_hex (n : nat) :
  String.length (getRandomString entropy n) = n
  ∧ allChars isHexDigit (getRandomString entropy n) = true.
Proof.
  unfold getRandomString, getRandomValues.
  destruct (join_hex (map entropy (seq 0 (Nat.div2 (n + 1))))) as [Hlen Hhex].
  rewrite slice_0_length, Hlen, length_map, length_seq.
  split; [pose proof (div2_covers n); lia|].
  now apply slice_0_allChars.
Qed.

End VerifierProperties.

(** *** Percent-encoding *)

Lemma get_occurs (i : nat) (s : string) (c : ascii) :
  get i s = Some c → occurs c s = true.
Proof.
  revert i. induction s as [|d s IH]; intros [|i]; simpl; try discriminate.
  - intros [= ->]. now rewrite Ascii.eqb_refl.
  - intros H. rewrite (IH i H). apply orb_true_r.
Qed.

Lemma hex_unreserved (c : ascii) :
  isHexDigit c = true → uriUnreserved c = true.
Proof.
  destruct c as [b0 b1 b2 b3 b4 b5 b6 b7].
  destruct b0, b1, b2, b3, b4, b5, b6, b7; vm_compute; intros H;
    (reflexivity || discriminate H).
Qed.

Lemma unreserved_safe (c : ascii) : uriUnreserved c = true → urlSafe c = true.
Proof. unfold urlSafe. now intros ->. Qed.

Lemma upper_hex_safe (c : ascii) :
  occurs c "0123456789ABCDEF" = true → urlSafe c = true.
Proof.
  destruct c as [b0 b1 b2 b3 b4 b5 b6 b7].
  destruct b0, b1, b2, b3, b4, b5, b6, b7; vm_compute; intros H;
    (reflexivity || discriminate H).
Qed.

Lemma unreserved_ascii (c : ascii) :
  uriUnreserved c = true → unitUnreserved (N_of_ascii c) = true.
Proof.
  destruct c as [b0 b1 b2 b3 b4 b5 b6 b7].
  destruct b0, b1, b2, b3, b4, b5, b6, b7; vm_compute; intros H;
    (reflexivity || discriminate H).
Qed.

Lemma ascii_not_surrogate (c : ascii) :
  isLeadSurrogate (N_of_ascii c) = false
  ∧ isTrailSurrogate (N_of_ascii c) = false.
Proof.
  pose proof (N_ascii_bounded c) as Hc.
  unfold isLeadSurrogate, isTrailSurrogate.
  split; apply andb_false_iff; left; apply N.leb_gt; lia.
Qed.

Lemma unreserved_not_surrogate (c : N) :
  unitUnreserved c = true →
  isLeadSurrogate c = false ∧ isTrailSurrogate c = false.
Proof.
  unfold unitUnreserved. intros [Hc%N.ltb_lt _]%andb_true_iff.
  unfold isLeadSurrogate, isTrailSurrogate.
  split; apply andb_false_iff; left; apply N.leb_gt; lia.
Qed.

Lemma digit_upper_safe (k : N) :
  urlSafe (digitChar "0123456789ABCDEF" k) = true.
Proof.
  apply upper_hex_safe. unfold digitChar.
  destruct (get (N.to_nat k) "0123456789ABCDEF") as [c|] eqn:Hget;
    [exact (get_occurs _ _ _ Hget) | reflexivity].
Qed.

Lemma percentByte_safe (b : N) :
  allChars urlSafe (percentByte b) = true
  ∧ String.length (percentByte b) = 3.
Proof.
  unfold percentByte. cbn [allChars String.length].
  now rewrite !digit_upper_safe.
Qed.

Lemma concat_escapes (bytes : list N) :
  allChars urlSafe (String.concat "" (map percentByte bytes)) = true
  ∧ String.length (String.concat "" (map percentByte bytes))
    = 3 * length bytes.
Proof.
  induction bytes as [|b [|b' bytes] [IHsafe IHlen]].
  - split; reflexivity.
  - destruct (percentByte_safe b) as [Hsafe Hlen].
    cbn [map String.concat length]. now rewrite Hsafe, Hlen.
  - destruct (percentByte_safe b) as [Hsafe Hlen].
    change (String.concat "" (map percentByte (b :: b' :: bytes)))
      with (percentByte b ++ "" ++ String.concat "" (map percentByte (b' :: bytes))).
    change ("" ++ ?x) with x.
    rewrite allChars_append, length_append, Hsafe, Hlen, IHsafe, IHlen.
    split; [reflexivity | cbn [length]; lia].
Qed.

Lemma escape_safe (cp : N) :
  allChars urlSafe (escape cp) = true ∧ (3 ≤ String.length (escape cp))%nat.
Proof.
  unfold escape. destruct (concat_escapes (utf8Bytes cp)) as [Hsafe Hlen].
  split; [exact Hsafe|]. rewrite Hlen.
  unfold utf8Bytes.
  destruct (cp <? 0x80)%N; [cbn [length]; lia|].
  destruct (cp <? 0x800)%N; [cbn [length]; lia|].
  destruct (cp <? 0x10000)%N; cbn [length]; lia.
Qed.

(** Induction on a string that follows [encodeURIComponent]: one code
    unit at a time, or two for a surrogate pair. *)
Lemma jsstring_pair_ind (P : jsstring → Prop) :
  P [] →
  (∀ c r, P r → (∀ d r', r = d :: r' → P r') → P (c :: r)) →
  ∀ s, P s.
Proof.
  intros Hnil Hcons s.
  assert (H : P s ∧ ∀ d r', s = d :: r' → P r').
  { induction s as [|c s [IH1 IH2]].
    - split; [exact Hnil | discriminate].
    - split; [apply Hcons; assumption|].
      intros d r' [= <- <-]. exact IH1. }
  exact (proj1 H).
Qed.

(** The outcome of [encodeURIComponent]: an error, [URIError], exactly on
    a string with a lone surrogate; otherwise a string of URL-safe
    characters, no shorter than the input. *)
Lemma encode_outcome (s : jsstring) :
  match encodeURIComponent s with
  | Ok e => isWellFormed s = true
            ∧ allChars urlSafe e = true
            ∧ (length s ≤ String.length e)%nat
  | Throw x => x = URIError ∧ isWellFormed s = false
  end.
Proof.
  pattern s. apply jsstring_pair_ind; clear s;
    [cbn; split; [reflexivity | split; [reflexivity | lia]]|].
  intros c r IH IH'.
  cbn [encodeURIComponent isWellFormed].
  destruct (unitUnreserved c) eqn:Hc.
  - destruct (unreserved_not_surrogate c Hc) as [-> ->]. cbn [negb andb].
    apply andb_true_iff in Hc as [_ Hc].
    destruct (encodeURIComponent r) as [e|x]; cbn; [|exact IH].
    destruct IH as (Hwf & Hsafe & Hlen).
    rewrite (unreserved_safe _ Hc), Hsafe. repeat split; [exact Hwf | lia].
  - destruct (isLeadSurrogate c).
    + destruct r as [|d r']; [now split|].
      destruct (isTrailSurrogate d); [|now split]. cbn [andb].
      specialize (IH' d r' eq_refl).
      destruct (encodeURIComponent r') as [e|x]; cbn; [|exact IH'].
      destruct IH' as (Hwf & Hsafe & Hlen).
      destruct (escape_safe (pairCodePoint c d)) as [Hesc Hesclen].
      rewrite allChars_append, length_append, Hesc, Hsafe.
      repeat split; [exact Hwf | lia].
    + destruct (isTrailSurrogate c); [now split|]. cbn [negb andb].
      destruct (encodeURIComponent r) as [e|x]; cbn; [|exact IH].
      destruct IH as (Hwf & Hsafe & Hlen).
      destruct (escape_safe c) as [Hesc Hesclen].
      rewrite allChars_append, length_append, Hesc, Hsafe.
      repeat split; [exact Hwf | lia].
Qed.

Lemma encode_wellFormed (s : jsstring) :
  isWellFormed s = true →
  ∃ e, encodeURIComponent s = Ok e
       ∧ allChars urlSafe e = true
       ∧ (length s ≤ String.length e)%nat.
Proof.
  intros Hwf. pose proof (encode_outcome s) as H.
  destruct (encodeURIComponent s) as [e|x].
  - exists e. split; [reflexivity | exact (proj2 H)].
  - destruct H as [_ H]. congruence.
Qed.

Lemma encode_illFormed (s : jsstring) :
  isWellFormed s = false → encodeURIComponent s = Throw URIError.
Proof.
  intros Hwf. pose proof (encode_outcome s) as H.
  destruct (encodeURIComponent s) as [e|x].
  - destruct H as [H _]. congruence.
  - now destruct H as [-> _].
Qed.

Lemma ofString_append (s1 s2 : string) :
  ofString (s1 ++ s2) = (ofString s1 ++ ofString s2)%list.
Proof.
  induction s1 as [|c s1 IH]; [reflexivity|].
  change (N_of_ascii c :: ofString (s1 ++ s2)
          = N_of_ascii c :: (ofString s1 ++ ofString s2)%list).
  now rewrite IH.
Qed.

Lemma ofString_length (s : string) : length (ofString s) = String.length s.
Proof. induction s as [|c s IH]; simpl; [reflexivity | now rewrite IH]. Qed.

Lemma encode_unreserved (s : string) :
  allChars uriUnreserved s = true → encodeURIComponent (ofString s) = Ok s.
Proof.
  induction s as [|c s IH]; [reflexivity|]. simpl.
  intros [Hc Hs]%andb_true_iff.
  rewrite (unreserved_ascii c Hc), (IH Hs), ascii_N_embedding. reflexivity.
Qed.

(** Appending a string of code units below U+0100 neither makes nor
    mends a lone surrogate. *)
Lemma wellFormed_append_ascii (p : jsstring) (h : string) :
  isWellFormed (p ++ ofString h)%list = isWellFormed p.
Proof.
  pattern p. apply jsstring_pair_ind; clear p; [|intros c r IH IH'].
  - induction h as [|a h IHh]; [reflexivity|].
    cbn [app ofString isWellFormed] in *.
    destruct (ascii_not_surrogate a) as [-> ->]. exact IHh.
  - cbn [app isWellFormed].
    destruct (isLeadSurrogate c).
    + destruct r as [|d r'].
      * destruct h as [|a h]; [reflexivity|].
        cbn [app ofString].
        now rewrite (proj2 (ascii_not_surrogate a)).
      * cbn [app]. now rewrite (IH' d r' eq_refl).
    + now rewrite IH.
Qed.

Lemma fromCharCode_length (bytes : list N) :
  String.length (fromCharCode bytes) = length bytes.
Proof. induction bytes as [|b r IH]; simpl; [reflexivity | now rewrite IH]. Qed.

Section GenerateVerifier.

Variable entropy : nat → Byte.byte.

Lemma generateVerifier_run (prefix : option jsstring) :
  generateVerifier entropy prefix =
    let verifier := prefixOrEmpty prefix in
    let verifier :=
      if Nat.ltb (length verifier) MIN_VERIFIER_LENGTH
      then (verifier
            ++ ofString (getRandomString entropy
                           (MIN_VERIFIER_LENGTH - length verifier)))%list
      else verifier in
    encoded ← encodeURIComponent verifier;
    mret (slice encoded 0 MAX_VERIFIER_LENGTH).
Proof.
  unfold generateVerifier. now destruct prefix as [[|c p]|].
Qed.

(** The verifier made from a string that has no lone surrogate and at
    least the minimum length. *)
Lemma cut_encoding (verifier : jsstring) :
  (MIN_VERIFIER_LENGTH ≤ length verifier)%nat →
  isWellFormed verifier = true →
  ∃ v, (encoded ← encodeURIComponent verifier;
        mret (slice encoded 0 MAX_VERIFIER_LENGTH)) = Ok v
       ∧ allChars urlSafe v = true
       ∧ (MIN_VERIFIER_LENGTH ≤ String.length v)%nat
       ∧ (String.length v ≤ MAX_VERIFIER_LENGTH)%nat.
Proof.
  intros Hmin Hwf.
  destruct (encode_wellFormed verifier Hwf) as (e & -> & Hsafe & Hlen).
  exists (slice e 0 MAX_VERIFIER_LENGTH). split; [reflexivity|].
  split; [now apply slice_0_allChars|]. rewrite slice_0_length.
  unfold MIN_VERIFIER_LENGTH, MAX_VERIFIER_LENGTH in *. lia.
Qed.

(** C7, as the code has it.  For a prefix shorter than the minimum length
    (an omitted prefix counts as empty), the string that is encoded is
    the prefix followed by random hex digits up to the minimum length.
    When the prefix has a lone surrogate the call throws [URIError].
    Otherwise it returns a verifier made of characters of a
    percent-encoded string, whose length lies between the minimum and the
    maximum length.  When every character of the prefix is one that
    percent-encoding leaves unchanged, the verifier is the prefix
    followed by the hex digits and its length is exactly the minimum
    length. *)
Theorem generateVerifier_short_prefix (prefix : option jsstring) :
  (length (prefixOrEmpty prefix) < MIN_VERIFIER_LENGTH)%nat →
  ∃ suffix : string,
    String.length suffix
      = MIN_VERIFIER_LENGTH - length (prefixOrEmpty prefix)
    ∧ allChars isHexDigit suffix = true
    ∧ generateVerifier entropy prefix =
        (encoded ← encodeURIComponent
                     (prefixOrEmpty prefix ++ ofString suffix)%list;
         mret (slice encoded 0 MAX_VERIFIER_LENGTH))
    ∧ (isWellFormed (prefixOrEmpty prefix) = false →
       generateVerifier entropy prefix = Throw URIError)
    ∧ (isWellFormed (prefixOrEmpty prefix) = true →
       ∃ verifier,
         generateVerifier entropy prefix = Ok verifier
         ∧ allChars urlSafe verifier = true
         ∧ (MIN_VERIFIER_LENGTH ≤ String.length verifier)%nat
         ∧ (String.length verifier ≤ MAX_VERIFIER_LENGTH)%nat)
    ∧ (∀ s : string,
         prefixOrEmpty prefix = ofString s →
         allChars uriUnreserved s = true →
         generateVerifier entropy prefix = Ok (s ++ suffix)
         ∧ String.length (s ++ suffix) = MIN_VERIFIER_LENGTH
         ∧ allChars uriUnreserved (s ++ suffix) = true).
Proof.
  intros Hshort. rewrite generateVerifier_run. cbv zeta.
  set (p := prefixOrEmpty prefix) in *.
  rewrite (proj2 (Nat.ltb_lt _ _) Hshort).
  destruct (getRandomString_hex entropy (MIN_VERIFIER_LENGTH - length p))
    as [Hlen Hhex].
  set (suffix := getRandomString entropy _) in *.
  exists suffix.
  assert (Htotal : length (p ++ ofString suffix)%list = MIN_VERIFIER_LENGTH)
    by (rewrite length_app, ofString_length, Hlen; lia).
  split; [exact Hlen|]. split; [exact Hhex|]. split; [reflexivity|].
  split; [|split].
  - intros Hwf.
    rewrite encode_illFormed; [reflexivity|].
    now rewrite wellFormed_append_ascii.
  - intros Hwf. apply cut_encoding; [now rewrite Htotal|].
    now rewrite wellFormed_append_ascii.
  - intros s Hs Hsafe. rewrite Hs in *.
    assert (Hall : allChars uriUnreserved (s ++ suffix) = true).
    { rewrite allChars_append, Hsafe.
      apply (allChars_impl _ _ _ hex_unreserved Hhex). }
    assert (Hstr : String.length (s ++ suffix) = MIN_VERIFIER_LENGTH)
      by (rewrite <- ofString_length, ofString_append; exact Htotal).
    rewrite <- ofString_append, (encode_unreserved _ Hall).
    change (Ok (slice (s ++ suffix) 0 MAX_VERIFIER_LENGTH) = Ok (s ++ suffix)
            ∧ String.length (s ++ suffix) = MIN_VERIFIER_LENGTH
            ∧ allChars uriUnreserved (s ++ suffix) = true).
    rewrite slice_0_all
      by (rewrite Hstr; unfold MIN_VERIFIER_LENGTH, MAX_VERIFIER_LENGTH; lia).
    repeat split; assumption.
Qed.

End GenerateVerifier.

Lemma generateVerifier_short_prefix_witness :
  generateVerifier sampleEntropy (Some (ofString "app-")) =
    Ok ("app-" ++ "a70fa70fa70fa70fa70fa70fa70fa70fa70fa70")
  ∧ String.length ("app-" ++ "a70fa70fa70fa70fa70fa70fa70fa70fa70fa70")
      = MIN_VERIFIER_LENGTH
  ∧ generateVerifier sampleEntropy (Some loneSurrogate) = Throw URIError.
Proof.
  destruct (generateVerifier_short_prefix sampleEntropy (Some (ofString "app-")))
    as (suffix & _ & _ & _ & _ & _ & Hexact);
    [unfold MIN_VERIFIER_LENGTH; simpl; lia|].
  destruct (generateVerifier_short_prefix sampleEntropy (Some loneSurrogate))
    as (suffix' & _ & _ & _ & Hthrow & _);
    [unfold MIN_VERIFIER_LENGTH; simpl; lia|].
  split; [reflexivity|]. split; [reflexivity|].
  apply Hthrow. reflexivity.
Defined.

(** C7, as the claim states it, fails: a prefix with a character that is
    percent-encoded gives a verifier longer than the minimum length. *)
Lemma generateVerifier_encoded_prefix_longer :
  (length (prefixOrEmpty (Some (ofString " "))) < MIN_VERIFIER_LENGTH)%nat
  ∧ generateVerifier sampleEntropy (Some (ofString " ")) =
      Ok ("%20" ++ "a70fa70fa70fa70fa70fa70fa70fa70fa70fa70fa7")
  ∧ String.length ("%20" ++ "a70fa70fa70fa70fa70fa70fa70fa70fa70fa70fa7")
      ≠ MIN_VERIFIER_LENGTH.
Proof.
  split; [unfold MIN_VERIFIER_LENGTH; simpl; lia|].
  split; [reflexivity|].
  vm_compute. discriminate.
Qed.

(** ** The challenge deriver: claims *)

Lemma b64_not_padding (n : N) : isPadding (b64 n) = false.
Proof.
  assert (Hocc : occurs (b64 n) base64Alphabet = true).
  { unfold b64, digitChar.
    destruct (get (N.to_nat n) base64Alphabet) as [c|] eqn:Hget;
      [exact (get_occurs _ _ _ Hget) | reflexivity]. }
  unfold isPadding.
  destruct (Ascii.eqb_spec (b64 n) "=") as [Heq|]; [|reflexivity].
  rewrite Heq in Hocc. discriminate Hocc.
Qed.

Lemma tailPadded_b64 (n : N) (s : string) :
  tailPadded (String (b64 n) s) = tailPadded s.
Proof. simpl. now rewrite b64_not_padding. Qed.

Lemma btoa_tailPadded (s : string) : tailPadded (btoa s) = true.
Proof.
  assert (H : ∀ n s, (String.length s ≤ n)%nat → tailPadded (btoa s) = true).
  { clear s. induction n as [|n IH]; intros [|a [|b [|c r]]] Hlen;
      simpl in Hlen; try lia; try reflexivity.
    - cbn [btoa]. now rewrite !tailPadded_b64.
    - cbn [btoa]. now rewrite !tailPadded_b64.
    - cbn [btoa]. rewrite !tailPadded_b64. apply IH. lia. }
  now apply (H (String.length s)).
Qed.

Lemma replaceAll_padding (c d : ascii) (s : string) :
  isPadding c = false → isPadding d = false →
  allChars isPadding (replaceAll c d s) = allChars isPadding s
  ∧ tailPadded (replaceAll c d s) = tailPadded s.
Proof.
  intros Hc Hd.
  assert (Hchar : ∀ x, isPadding (if Ascii.eqb x c then d else x) = isPadding x).
  { intros x. destruct (Ascii.eqb_spec x c) as [->|]; [|reflexivity].
    now rewrite Hc, Hd. }
  induction s as [|x s [IH1 IH2]]; [split; reflexivity|].
  simpl. now rewrite Hchar, IH1, IH2.
Qed.

Lemma replaceAll_removes (c d : ascii) (s : string) :
  Ascii.eqb d c = false →
  allChars (λ x, negb (Ascii.eqb x c)) (replaceAll c d s) = true.
Proof.
  intros Hd. induction s as [|x s IH]; [reflexivity|]. simpl.
  rewrite IH, andb_true_r.
  destruct (Ascii.eqb x c) eqn:Hx; [now rewrite Hd | now rewrite Hx].
Qed.

Lemma replaceAll_keeps (p : ascii → bool) (c d : ascii) (s : string) :
  p d = true → allChars p s = true → allChars p (replaceAll c d s) = true.
Proof.
  intros Hd. induction s as [|x s IH]; [reflexivity|]. simpl.
  intros [Hx Hs]%andb_true_iff. rewrite (IH Hs), andb_true_r.
  now destruct (Ascii.eqb x c).
Qed.

Lemma stripPadding_all_padding (s : string) :
  allChars isPadding s = true → stripPadding s = "".
Proof.
  induction s as [|x s IH]; [reflexivity|]. simpl.
  intros [Hx Hs]%andb_true_iff. rewrite (IH Hs).
  unfold isPadding in Hx. now rewrite Hx.
Qed.

Lemma stripPadding_keeps (p : ascii → bool) (s : string) :
  allChars p s = true → allChars p (stripPadding s) = true.
Proof.
  induction s as [|x s IH]; [reflexivity|]. simpl.
  intros [Hx Hs]%andb_true_iff. specialize (IH Hs).
  destruct (stripPadding s) as [|y r].
  - destruct (Ascii.eqb x "="); [reflexivity|]. simpl. now rewrite Hx.
  - change (p x && allChars p (String y r) = true). now rewrite Hx, IH.
Qed.

Lemma stripPadding_no_padding (s : string) :
  tailPadded s = true →
  allChars (λ x, negb (isPadding x)) (stripPadding s) = true.
Proof.
  induction s as [|x s IH]; [reflexivity|]. simpl.
  intros [Hx Hs]%andb_true_iff. specialize (IH Hs).
  destruct (stripPadding s) as [|y r] eqn:Hstrip.
  - fold (isPadding x). destruct (isPadding x) eqn:Hpad; [reflexivity|].
    simpl. now rewrite Hpad.
  - change (negb (isPadding x)
            && allChars (λ x0, negb (isPadding x0)) (String y r) = true).
    rewrite IH, andb_true_r.
    destruct (isPadding x); [|reflexivity].
    rewrite (stripPadding_all_padding s Hx) in Hstrip. discriminate Hstrip.
Qed.

Lemma allChars_and3 (p q r : ascii → bool) (s : string) :
  allChars p s = true → allChars q s = true → allChars r s = true →
  allChars (λ c, p c && q c && r c) s = true.
Proof.
  induction s as [|c s IH]; [reflexivity|]. simpl.
  intros [Hp Hps]%andb_true_iff [Hq Hqs]%andb_true_iff [Hr Hrs]%andb_true_iff.
  now rewrite Hp, Hq, Hr, IH.
Qed.

Lemma stringToBase64Url_alphabet (s : string) :
  allChars challengeChar (stringToBase64Url s) = true.
Proof.
  unfold stringToBase64Url, base64ToBase64Url.
  set (t := replaceAll "/" "_" (replaceAll "+" "-" (btoa s))).
  assert (Hplus : allChars (λ x, negb (Ascii.eqb x "+")) t = true).
  { apply replaceAll_keeps; [reflexivity|]. now apply replaceAll_removes. }
  assert (Hslash : allChars (λ x, negb (Ascii.eqb x "/")) t = true)
    by now apply replaceAll_removes.
  assert (Htail : tailPadded t = true).
  { subst t.
    rewrite (proj2 (replaceAll_padding "/" "_" _ eq_refl eq_refl)).
    rewrite (proj2 (replaceAll_padding "+" "-" _ eq_refl eq_refl)).
    apply btoa_tailPadded. }
  apply (stripPadding_keeps _ _) in Hplus, Hslash.
  apply stripPadding_no_padding in Htail.
  exact (allChars_and3 _ _ _ _ Hplus Hslash Htail).
Qed.

Section ChallengeProperties.

Variable sha256 : list N → list N.

(** C8. [computeChallenge] is deterministic: for one verifier it resolves
    to one challenge, whatever the state of the world, which it leaves
    as it was; and the challenge has no [+], no [/] and no [=]. *)
Theorem computeChallenge_deterministic (verifier : string) (w1 w2 : world) :
  (computeChallenge sha256 verifier w1).1 = (computeChallenge sha256 verifier w2).1
  ∧ (computeChallenge sha256 verifier w1).2 = w1
  ∧ ∃ challenge : string,
      (computeChallenge sha256 verifier w1).1 = Ok (Resolved challenge)
      ∧ allChars challengeChar challenge = true.
Proof.
  split; [reflexivity|]. split; [reflexivity|].
  eexists. split; [reflexivity|].
  apply stringToBase64Url_alphabet.
Qed.

End ChallengeProperties.

(** * Further properties *)

(** ** Hexadecimal formatting *)

Lemma digitChar_hex (k : N) : isHexDigit (digitChar hexLower k) = true.
Proof.
  unfold digitChar.
  destruct (get (N.to_nat k) hexLower) as [c|] eqn:Hget;
    [exact (get_occurs _ _ _ Hget) | reflexivity].
Qed.

Lemma toHexDigits_last (fuel : nat) (n : N) (acc : string) :
  ∃ pre, toHexDigits fuel n acc
         = pre ++ String (digitChar hexLower (n mod 16)%N) acc.
Proof.
  revert n acc. induction fuel as [|fuel IH]; intros n acc.
  - now exists "".
  - simpl. destruct (n / 16 =? 0)%N; [now exists ""|].
    destruct (IH (n / 16)%N (String (digitChar hexLower (n mod 16)%N) acc))
      as [pre Hpre].
    exists (pre ++ String (digitChar hexLower ((n / 16) mod 16)%N) "").
    unfold hexLower in *. rewrite Hpre, append_assoc. reflexivity.
Qed.

Lemma substring_skip (s t : string) (m : nat) :
  substring (String.length s) m (s ++ t) = substring 0 m t.
Proof.
  induction s as [|c s IH]; [now destruct t, m|].
  change (substring (String.length s) m (s ++ t) = substring 0 m t). exact IH.
Qed.

Lemma substrLast_append (s t : string) (n : nat) :
  String.length t = n → substrLast (s ++ t) n = t.
Proof.
  intros <-. unfold substrLast.
  rewrite length_append, Nat.add_sub, substring_skip.
  apply substring_all.
Qed.

Lemma dec2hex_closed_form (n : N) :
  dec2hex n = String (digitChar hexLower ((n / 16) mod 16)%N)
                (String (digitChar hexLower (n mod 16)%N) "").
Proof.
  unfold dec2hex, toString16.
  destruct (n / 16 =? 0)%N eqn:Hsmall.
  - apply N.eqb_eq in Hsmall. rewrite Hsmall.
    assert (Hdigits : ∀ fuel, toHexDigits fuel n ""
              = String (digitChar hexLower (n mod 16)%N) "").
    { intros [|fuel]; simpl; [reflexivity|].
      now rewrite Hsmall. }
    rewrite Hdigits. reflexivity.
  - assert (Hfuel : ∃ fuel, N.to_nat (N.size n) = S fuel).
    { destruct n as [|p]; [discriminate Hsmall|]. simpl.
      exists (Nat.pred (Pos.to_nat (Pos.size p))). lia. }
    destruct Hfuel as [fuel ->]. simpl. rewrite Hsmall.
    destruct (toHexDigits_last fuel (n / 16)%N
                (String (digitChar hexLower (n mod 16)%N) "")) as [pre Hpre].
    unfold hexLower in *. rewrite Hpre.
    change ("0" ++ ?x) with (String "0" x).
    change (String "0" (pre ++ ?t)) with (String "0" pre ++ t).
    now apply substrLast_append.
Qed.

Lemma hexDecode_dec2hex (b : Byte.byte) :
  hexDecode (dec2hex (Byte.to_N b)) = Some b.
Proof. destruct b; reflexivity. Qed.

Lemma dec2hex_byte_inj (b1 b2 : Byte.byte) :
  dec2hex (Byte.to_N b1) = dec2hex (Byte.to_N b2) → b1 = b2.
Proof.
  intros H. apply (f_equal hexDecode) in H.
  rewrite !hexDecode_dec2hex in H. now injection H.
Qed.

Lemma low_byte_digits (n : N) :
  (((n mod 256) / 16) mod 16 = (n / 16) mod 16
   ∧ (n mod 256) mod 16 = n mod 16)%N.
Proof.
  split.
  - zify. Z.to_euclidean_division_equations. lia.
  - zify. Z.to_euclidean_division_equations. lia.
Qed.

(** X1. [dec2hex] gives exactly two lower-case hex digits for every
    number, zero-padded; only the low byte of the number counts; and two
    different bytes never get the same two digits. *)
Theorem dec2hex_two_digits :
  (∀ n : N,
     String.length (dec2hex n) = 2
     ∧ allChars isHexDigit (dec2hex n) = true
     ∧ dec2hex n = dec2hex (n mod 256)%N)
  ∧ (∀ b1 b2 : Byte.byte,
       dec2hex (Byte.to_N b1) = dec2hex (Byte.to_N b2) → b1 = b2).
Proof.
  split; [|exact dec2hex_byte_inj].
  intros n. rewrite !dec2hex_closed_form.
  destruct (low_byte_digits n) as [-> ->].
  split; [reflexivity|]. split; [|reflexivity].
  simpl. now rewrite !digitChar_hex.
Qed.

Lemma dec2hex_two_digits_witness :
  dec2hex 4106 = dec2hex (4106 mod 256)%N ∧ Byte.x0a = Byte.x0a.
Proof.
  split.
  - apply (proj1 dec2hex_two_digits 4106%N).
  - apply (proj2 dec2hex_two_digits Byte.x0a Byte.x0a). reflexivity.
Defined.

(** ** The random string *)

Lemma append_empty_r (s : string) : s ++ "" = s.
Proof.
  induction s as [|c s IH]; [reflexivity|].
  change (String c (s ++ "") = String c s). now rewrite IH.
Qed.

Lemma join_empty_cons (x : string) (l : list string) :
  join "" (x :: l) = x ++ join "" l.
Proof.
  destruct l as [|y l]; [symmetry; apply append_empty_r | reflexivity].
Qed.

(** Equal prefixes of two hex dumps come from equal prefixes of the bytes. *)
Lemma hex_dump_prefix (l1 l2 : list Byte.byte) (n : nat) :
  length l1 = length l2 →
  substring 0 n (join "" (map (λ b, dec2hex (Byte.to_N b)) l1))
    = substring 0 n (join "" (map (λ b, dec2hex (Byte.to_N b)) l2)) →
  take (Nat.div2 n) l1 = take (Nat.div2 n) l2.
Proof.
  revert l2 n. induction l1 as [|b1 l1 IH]; intros [|b2 l2] n Hlen;
    try discriminate Hlen.
  - now rewrite !take_nil.
  - destruct n as [|[|n]]; [reflexivity | reflexivity |].
    rewrite !map_cons, !join_empty_cons.
    pose proof (dec2hex_byte_inj b1 b2) as Hinj.
    rewrite (dec2hex_closed_form (Byte.to_N b1)) in *.
    rewrite (dec2hex_closed_form (Byte.to_N b2)) in *.
    cbn [Nat.div2 take substring append]. rewrite !Nat.sub_0_r || idtac.
    intros Heq. injection Heq as Hhi Hlo Hrest.
    rewrite (Hinj ltac:(now rewrite Hhi, Hlo)).
    f_equal. apply IH; [now injection Hlen | exact Hrest].
Qed.

Lemma take_map_seq (e : nat → Byte.byte) (k m : nat) :
  (k ≤ m)%nat → take k (map e (seq 0 m)) = map e (seq 0 k).
Proof.
  intros Hkm. rewrite firstn_map. f_equal.
  replace m with (k + (m - k)) by lia.
  rewrite seq_app, take_app_length'; [reflexivity | now rewrite length_seq].
Qed.

Lemma map_seq_pointwise (e1 e2 : nat → Byte.byte) (k : nat) :
  map e1 (seq 0 k) = map e2 (seq 0 k) → ∀ i, (i < k)%nat → e1 i = e2 i.
Proof.
  intros Heq i Hi.
  assert (Hnth : ∀ e : nat → Byte.byte,
            nth i (map e (seq 0 k)) (e 0) = e i).
  { intros e. rewrite map_nth, seq_nth by exact Hi. reflexivity. }
  rewrite <- (Hnth e1), <- (Hnth e2), Heq.
  apply nth_indep. now rewrite length_map, length_seq.
Qed.

Lemma div2_le_div2_succ (n : nat) : (Nat.div2 n ≤ Nat.div2 (n + 1))%nat.
Proof.
  rewrite Nat.add_1_r.
  destruct (Nat.Even_or_Odd n) as [[k ->]|[k ->]].
  - rewrite Nat.div2_succ_double, Nat.div2_double. lia.
  - replace (S (2 * k + 1)) with (2 * (S k)) by lia.
    replace (2 * k + 1) with (S (2 * k)) by lia.
    rewrite Nat.div2_succ_double, Nat.div2_double. lia.
Qed.

Lemma getRandomString_bytes (e1 e2 : nat → Byte.byte) (n : nat) :
  getRandomString e1 n = getRandomString e2 n →
  ∀ i, (i < Nat.div2 n)%nat → e1 i = e2 i.
Proof.
  unfold getRandomString, getRandomValues, slice. rewrite Nat.sub_0_r.
  intros Heq. apply hex_dump_prefix in Heq;
    [|now rewrite !length_map].
  rewrite !take_map_seq in Heq by apply div2_le_div2_succ.
  now apply map_seq_pointwise.
Qed.

(** X2. [getRandomString] returns exactly [length] characters, all of them
    lower-case hex digits, for every [length] (odd ones and zero
    included); and the string determines each of the first
    [floor(length / 2)] random bytes: formatting loses none of their
    bits. *)
Theorem getRandomString_keeps_entropy (e1 e2 : nat → Byte.byte) (n : nat) :
  String.length (getRandomString e1 n) = n
  ∧ allChars isHexDigit (getRandomString e1 n) = true
  ∧ (getRandomString e1 n = getRandomString e2 n →
     ∀ i, (i < Nat.div2 n)%nat → e1 i = e2 i).
Proof.
  destruct (getRandomString_hex e1 n) as [Hlen Hhex].
  split; [exact Hlen|]. split; [exact Hhex|].
  apply getRandomString_bytes.
Qed.

Lemma getRandomString_keeps_entropy_witness :
  sampleEntropy 2 = sampleEntropy 4.
Proof.
  apply (proj2 (proj2 (getRandomString_keeps_entropy
                         sampleEntropy (λ i, sampleEntropy (i + 2)) 7))
           eq_refl 2).
  simpl. lia.
Defined.

(** ** The verifier generator, for every prefix *)

Lemma substring_0_append (n : nat) (s1 s2 : string) :
  (n ≤ String.length s1)%nat →
  substring 0 n (s1 ++ s2) = substring 0 n s1.
Proof.
  revert n. induction s1 as [|c s1 IH]; intros [|n] Hn; simpl in Hn.
  - now destruct s2.
  - lia.
  - reflexivity.
  - change (String c (substring 0 n (s1 ++ s2)) = String c (substring 0 n s1)).
    rewrite IH; [reflexivity | lia].
Qed.

Lemma slice_0_append (n : nat) (s1 s2 : string) :
  (n ≤ String.length s1)%nat → slice (s1 ++ s2) 0 n = slice s1 0 n.
Proof. unfold slice. rewrite Nat.sub_0_r. apply substring_0_append. Qed.

(** After a string that encodes without error, the encoding goes on with
    what follows. *)
Lemma encode_append_ok (x : jsstring) (p : jsstring) :
  ∀ e, encodeURIComponent p = Ok e →
       encodeURIComponent (p ++ x)%list
         = (ex ← encodeURIComponent x; mret (e ++ ex)).
Proof.
  pattern p. apply jsstring_pair_ind; clear p.
  - intros e [= <-]. cbn [app]. now destruct (encodeURIComponent x).
  - intros c r IH IH' e. cbn [app encodeURIComponent].
    destruct (unitUnreserved c).
    + destruct (encodeURIComponent r) as [er|]; [|discriminate].
      intros [= <-]. rewrite (IH er eq_refl).
      now destruct (encodeURIComponent x).
    + destruct (isLeadSurrogate c).
      * destruct r as [|d r']; [discriminate|]. cbn [app].
        destruct (isTrailSurrogate d); [|discriminate].
        destruct (encodeURIComponent r') as [er|] eqn:Er; [|discriminate].
        intros [= <-]. rewrite (IH' d r' eq_refl er Er).
        destruct (encodeURIComponent x); [|reflexivity].
        cbn. now rewrite append_assoc.
      * destruct (isTrailSurrogate c); [discriminate|].
        destruct (encodeURIComponent r) as [er|]; [|discriminate].
        intros [= <-]. rewrite (IH er eq_refl).
        destruct (encodeURIComponent x); [|reflexivity].
        cbn. now rewrite append_assoc.
Qed.

Lemma generateVerifier_omitted (entropy : nat → Byte.byte) :
  generateVerifier entropy None
    = Ok (getRandomString entropy MIN_VERIFIER_LENGTH).
Proof.
  rewrite generateVerifier_run. cbn [prefixOrEmpty length]. cbv zeta.
  change (Nat.ltb 0 MIN_VERIFIER_LENGTH) with true. cbv iota.
  cbn [app]. rewrite Nat.sub_0_r.
  destruct (getRandomString_hex entropy MIN_VERIFIER_LENGTH) as [Hlen Hhex].
  rewrite encode_unreserved
    by exact (allChars_impl _ _ _ hex_unreserved Hhex).
  change (Ok (slice (getRandomString entropy MIN_VERIFIER_LENGTH) 0
                MAX_VERIFIER_LENGTH)
          = Ok (getRandomString entropy MIN_VERIFIER_LENGTH)).
  rewrite slice_0_all; [reflexivity|]. rewrite Hlen.
  unfold MIN_VERIFIER_LENGTH, MAX_VERIFIER_LENGTH. lia.
Qed.

Section GenerateVerifierFurther.

Variable entropy : nat → Byte.byte.

(** X3. Whatever the prefix (omitted, short or long) and whatever the
    random bytes: when the prefix has a lone surrogate the call throws
    [URIError]; otherwise it returns a verifier that has at least the
    minimum and at most the maximum length and is made only of the
    characters of a percent-encoded string. *)
Theorem generateVerifier_bounds (prefix : option jsstring) :
  (isWellFormed (prefixOrEmpty prefix) = false →
     generateVerifier entropy prefix = Throw URIError)
  ∧ (isWellFormed (prefixOrEmpty prefix) = true →
     ∃ verifier,
       generateVerifier entropy prefix = Ok verifier
       ∧ (MIN_VERIFIER_LENGTH ≤ String.length verifier)%nat
       ∧ (String.length verifier ≤ MAX_VERIFIER_LENGTH)%nat
       ∧ allChars urlSafe verifier = true).
Proof.
  rewrite generateVerifier_run. cbv zeta.
  set (p := prefixOrEmpty prefix).
  set (verifier := if Nat.ltb _ _ then _ else _).
  assert (Hmin : (MIN_VERIFIER_LENGTH ≤ length verifier)%nat).
  { subst verifier.
    destruct (Nat.ltb_spec (length p) MIN_VERIFIER_LENGTH) as [Hlt|Hge];
      [|exact Hge].
    rewrite length_app, ofString_length,
      (proj1 (getRandomString_hex entropy _)). lia. }
  assert (Hwf : isWellFormed verifier = isWellFormed p).
  { subst verifier. destruct (Nat.ltb _ _); [|reflexivity].
    apply wellFormed_append_ascii. }
  split; intros Hp; rewrite <- Hwf in Hp.
  - now rewrite encode_illFormed.
  - destruct (cut_encoding verifier Hmin Hp) as (v & Hv & Hsafe & Hlo & Hhi).
    exists v. repeat split; assumption.
Qed.

(** X4. A prefix that already has the minimum length gets no random
    suffix: the verifier is the percent-encoded prefix cut at the maximum
    length (the error of the encoding when it throws), the same for
    every random source; it is the prefix itself when the prefix has at
    most the maximum length and only characters that percent-encoding
    leaves unchanged. *)
Theorem generateVerifier_long_prefix (prefix : jsstring) :
  (MIN_VERIFIER_LENGTH ≤ length prefix)%nat →
  generateVerifier entropy (Some prefix)
    = (encoded ← encodeURIComponent prefix;
       mret (slice encoded 0 MAX_VERIFIER_LENGTH))
  ∧ (∀ other : nat → Byte.byte,
       generateVerifier other (Some prefix)
         = generateVerifier entropy (Some prefix))
  ∧ (∀ s : string,
       prefix = ofString s →
       (String.length s ≤ MAX_VERIFIER_LENGTH)%nat →
       allChars uriUnreserved s = true →
       generateVerifier entropy (Some prefix) = Ok s).
Proof.
  intros Hlong.
  assert (Hrun : ∀ e, generateVerifier e (Some prefix)
            = (encoded ← encodeURIComponent prefix;
               mret (slice encoded 0 MAX_VERIFIER_LENGTH))).
  { intros e. rewrite generateVerifier_run. cbn [prefixOrEmpty].
    now rewrite (proj2 (Nat.ltb_ge _ _) Hlong). }
  split; [apply Hrun|]. split; [intros other; now rewrite !Hrun|].
  intros s -> Hmax Hsafe.
  rewrite Hrun, (encode_unreserved _ Hsafe).
  change (Ok (slice s 0 MAX_VERIFIER_LENGTH) = Ok s).
  now rewrite slice_0_all.
Qed.

(** X5. Truncation hides what follows: once the percent-encoding of [p]
    has the maximum length, every prefix that starts with [p] and goes
    on without a lone surrogate gives the same verifier, the encoding of
    [p] cut at the maximum length, whatever the random bytes; when what
    follows [p] has a lone surrogate, the call throws [URIError]. *)
Theorem generateVerifier_truncation_collision
    (other : nat → Byte.byte) (p x y : jsstring) (e : string) :
  encodeURIComponent p = Ok e →
  (MAX_VERIFIER_LENGTH ≤ String.length e)%nat →
  (isWellFormed x = true →
     generateVerifier entropy (Some (p ++ x)%list)
       = Ok (slice e 0 MAX_VERIFIER_LENGTH))
  ∧ (isWellFormed x = false →
     generateVerifier entropy (Some (p ++ x)%list) = Throw URIError)
  ∧ (isWellFormed x = true → isWellFormed y = true →
     generateVerifier entropy (Some (p ++ x)%list)
       = generateVerifier other (Some (p ++ y)%list)).
Proof.
  intros Hp Hfull.
  assert (Hrun : ∀ en z, ∃ z',
            isWellFormed z' = isWellFormed z
            ∧ generateVerifier en (Some (p ++ z)%list)
              = (ez ← encodeURIComponent z';
                 mret (slice (e ++ ez) 0 MAX_VERIFIER_LENGTH))).
  { intros en z. rewrite generateVerifier_run. cbn [prefixOrEmpty]. cbv zeta.
    destruct (Nat.ltb _ _).
    - exists (z ++ ofString (getRandomString en
                               (MIN_VERIFIER_LENGTH - length (p ++ z))))%list.
      split; [apply wellFormed_append_ascii|].
      rewrite <- app_assoc, (encode_append_ok _ p e Hp).
      now destruct (encodeURIComponent (z ++ _)%list).
    - exists z. split; [reflexivity|].
      rewrite (encode_append_ok _ p e Hp).
      now destruct (encodeURIComponent z). }
  assert (Hok : ∀ en z, isWellFormed z = true →
            generateVerifier en (Some (p ++ z)%list)
              = Ok (slice e 0 MAX_VERIFIER_LENGTH)).
  { intros en z Hz. destruct (Hrun en z) as (z' & Hwf & ->).
    rewrite <- Hwf in Hz.
    destruct (encode_wellFormed z' Hz) as (ez & -> & _).
    cbn. now rewrite slice_0_append. }
  split; [apply Hok|]. split.
  - intros Hx. destruct (Hrun entropy x) as (z' & Hwf & ->).
    rewrite <- Hwf in Hx. now rewrite (encode_illFormed z' Hx).
  - intros Hx Hy. now rewrite !Hok.
Qed.

End GenerateVerifierFurther.

(** X6. With the prefix omitted, or empty, the verifier is the random
    string of the minimum length: lower-case hex digits only, and two
    random sources that give the same verifier agree on each of their
    first 21 bytes. *)
Theorem generateVerifier_omitted_prefix (e1 e2 : nat → Byte.byte) :
  generateVerifier e1 None = Ok (getRandomString e1 MIN_VERIFIER_LENGTH)
  ∧ generateVerifier e1 (Some []) = generateVerifier e1 None
  ∧ allChars isHexDigit (getRandomString e1 MIN_VERIFIER_LENGTH) = true
  ∧ (generateVerifier e1 None = generateVerifier e2 None →
     ∀ i, (i < 21)%nat → e1 i = e2 i).
Proof.
  split; [apply generateVerifier_omitted|].
  split; [now rewrite !generateVerifier_run|].
  rewrite !generateVerifier_omitted.
  split; [apply getRandomString_hex|].
  intros [= Heq]. exact (getRandomString_bytes e1 e2 43 Heq).
Qed.

Lemma generateVerifier_bounds_witness :
  generateVerifier sampleEntropy (Some loneSurrogate) = Throw URIError
  ∧ ∃ verifier,
      generateVerifier sampleEntropy (Some [0xD83D; 0xDE00]%N) = Ok verifier
      ∧ (MIN_VERIFIER_LENGTH ≤ String.length verifier)%nat.
Proof.
  split.
  - apply (proj1 (generateVerifier_bounds sampleEntropy (Some loneSurrogate))).
    reflexivity.
  - destruct (proj2 (generateVerifier_bounds sampleEntropy
                       (Some [0xD83D; 0xDE00]%N)) eq_refl)
      as (v & Hv & Hmin & _).
    exists v. split; assumption.
Defined.

Lemma generateVerifier_long_prefix_witness :
  generateVerifier sampleEntropy (Some (ofString longPrefix)) = Ok longPrefix.
Proof.
  apply (proj2 (proj2 (generateVerifier_long_prefix sampleEntropy
                         (ofString longPrefix) ltac:(vm_compute; lia)))
           longPrefix).
  - reflexivity.
  - unfold MAX_VERIFIER_LENGTH. simpl. lia.
  - reflexivity.
Defined.

Lemma generateVerifier_truncation_collision_witness :
  generateVerifier sampleEntropy
    (Some (ofString manySpaces ++ ofString "first")%list)
    = generateVerifier (λ _, Byte.x00)
        (Some (ofString manySpaces ++ ofString "second")%list).
Proof.
  apply (generateVerifier_truncation_collision sampleEntropy (λ _, Byte.x00)
           (ofString manySpaces) (ofString "first") (ofString "second")
           _ eq_refl).
  - unfold MAX_VERIFIER_LENGTH. simpl. lia.
  - reflexivity.
  - reflexivity.
Defined.

Lemma generateVerifier_omitted_prefix_witness :
  sampleEntropy 20 = sampleEntropy 22.
Proof.
  apply (proj2 (proj2 (proj2 (generateVerifier_omitted_prefix
                  sampleEntropy (λ i, sampleEntropy (i + 2)))))
           eq_refl 20).
  lia.
Defined.

(** ** The flow metadata store, further *)

Lemma default_tier_session (sdk : Sdk) :
  prefersLocalStorage sdk = false → getStorage sdk None = TierB.
Proof. intros H. rewrite getStorage_default. fold (prefersLocalStorage sdk). now rewrite H. Qed.

Lemma default_tier_local (sdk : Sdk) :
  prefersLocalStorage sdk = true → getStorage sdk None = TierA.
Proof. intros H. rewrite getStorage_default. fold (prefersLocalStorage sdk). now rewrite H. Qed.

(** X7. [saveMeta] always returns normally, and it warns exactly about the
    records it reads: the warning of tier A is among the calls it makes
    if and only if tier A held a code verifier, the warning of tier B if
    and only if the tier [getStorage(sdk)] resolves to held one, which is
    tier B unless the cookies options of the sdk carry
    [preferLocalStorage]; it emits no other warning and issues no HTTP
    request. *)
Theorem saveMeta_warns_exactly (sdk : Sdk) (meta : gmap string jsval)
    (w : world) :
  (saveMeta sdk meta w).1 = Ok tt
  ∧ ∃ calls : list event,
      trace (saveMeta sdk meta w).2 = (trace w ++ calls)%list
      ∧ (EvWarn warnLocalStorage ∈ calls
         ↔ hasCodeVerifier (localStorage w) = true)
      ∧ (EvWarn warnSessionStorage ∈ calls
         ↔ hasCodeVerifier (readTier (getStorage sdk None) w) = true)
      ∧ (prefersLocalStorage sdk = false →
         (EvWarn warnSessionStorage ∈ calls
          ↔ hasCodeVerifier (sessionStorage w) = true))
      ∧ (∀ msg, EvWarn msg ∈ calls
           → msg = warnLocalStorage ∨ msg = warnSessionStorage)
      ∧ (∀ req, EvHttp req ∉ calls).
Proof.
  rewrite saveMeta_run. split; [reflexivity|].
  exists (saveMetaTrace sdk w meta). split; [reflexivity|].
  assert (Hsession : EvWarn warnSessionStorage ∈ saveMetaTrace sdk w meta
            ↔ hasCodeVerifier (readTier (getStorage sdk None) w) = true).
  { rewrite saveMetaTrace_events. split.
    - intros [H|[H|[H|[H|[H|[[H _]|[_ H]]]]]]];
        (discriminate H || exact H).
    - intros H. right. right. right. right. right. right. now split. }
  split; [|split; [exact Hsession|split; [|split]]].
  - rewrite saveMetaTrace_events. split.
    + intros [H|[H|[H|[H|[H|[[_ H]|[H _]]]]]]];
        (discriminate H || exact H).
    + intros H. right. right. right. right. right. left. now split.
  - intros Hsdk%default_tier_session. now rewrite Hsdk in Hsession.
  - intros msg.
    intros [H|[H|[H|[H|[H|[[H _]|[H _]]]]]]]%saveMetaTrace_events;
      try discriminate H; injection H as ->; [now left | now right].
  - intros req.
    intros [H|[H|[H|[H|[H|[[H _]|[H _]]]]]]]%saveMetaTrace_events;
      discriminate H.
Qed.

Lemma saveMeta_warns_exactly_witness :
  ∃ calls : list event,
    trace (saveMeta someSdk freshMeta sessionOnlyWorld).2
      = (trace sessionOnlyWorld ++ calls)%list
    ∧ (EvWarn warnSessionStorage ∈ calls)
    ∧ (EvWarn warnLocalStorage ∉ calls).
Proof.
  destruct (saveMeta_warns_exactly someSdk freshMeta sessionOnlyWorld)
    as (_ & calls & Htrace & HA & _ & HB & _).
  exists calls. split; [exact Htrace|]. split.
  - apply (HB eq_refl). reflexivity.
  - intros Hin. apply HA in Hin. discriminate Hin.
Defined.

Lemma runOps_cons (sdk : Sdk) (op : storeOp) (ops : list storeOp) (w : world) :
  runOps sdk (op :: ops) w = runOps sdk ops (runOp sdk op w).
Proof. reflexivity. Qed.

Lemma runOp_tiers (sdk : Sdk) (op : storeOp) (w : world) :
  localStorage (runOp sdk op w)
    = match op with
      | OpSave meta => if prefersLocalStorage sdk then meta else ∅
      | OpLoad => localStorage w
      | OpClear => ∅
      end
  ∧ sessionStorage (runOp sdk op w)
    = if prefersLocalStorage sdk then sessionStorage w
      else match op with
           | OpSave meta => meta
           | OpLoad => sessionStorage w
           | OpClear => ∅
           end.
Proof.
  destruct op; unfold runOp.
  - rewrite saveMeta_run, getStorage_default.
    fold (prefersLocalStorage sdk).
    now destruct (prefersLocalStorage sdk).
  - rewrite loadMeta_run.
    destruct (hasCodeVerifier (localStorage w));
      [|destruct (hasCodeVerifier (sessionStorage w))];
      now destruct (prefersLocalStorage sdk).
  - rewrite clearMeta_run, getStorage_default.
    fold (prefersLocalStorage sdk).
    now destruct (prefersLocalStorage sdk).
Qed.

Lemma runOps_tiers (sdk : Sdk) (ops : list storeOp) (w : world) :
  localStorage (runOps sdk ops w)
    = match lastWrite ops with
      | Some (OpSave meta) => if prefersLocalStorage sdk then meta else ∅
      | Some _ => ∅
      | None => localStorage w
      end
  ∧ sessionStorage (runOps sdk ops w)
    = if prefersLocalStorage sdk then sessionStorage w
      else match lastWrite ops with
           | Some (OpSave meta) => meta
           | Some _ => ∅
           | None => sessionStorage w
           end.
Proof.
  revert w. induction ops as [|op ops IH]; intros w.
  - now destruct (prefersLocalStorage sdk).
  - rewrite runOps_cons. cbn [lastWrite].
    destruct (IH (runOp sdk op w)) as [-> ->].
    destruct (runOp_tiers sdk op w) as [-> ->].
    destruct (lastWrite ops) as [[]|], op, (prefersLocalStorage sdk);
      split; reflexivity.
Qed.

(** X8. After any history of [saveMeta], [loadMeta] and [clearMeta] calls,
    from any state, the two tiers depend only on the last save or clear
    of the history; loads in between change nothing.  For an sdk whose
    cookies options do not carry [preferLocalStorage]: after a last save
    of [meta], tier A is empty, tier B holds [meta], and [loadMeta]
    returns [meta] when it holds a code verifier; after a last clear both
    tiers are empty and [loadMeta] throws; with neither, the tiers are as
    they were.  For an sdk whose cookies options carry it, tier B is
    never written: it is as it was, and tier A holds [meta] after a last
    save and nothing after a last clear. *)
Theorem store_history (sdk : Sdk) (ops : list storeOp) (w : world) :
  let w' := runOps sdk ops w in
  (prefersLocalStorage sdk = false →
     match lastWrite ops with
     | Some (OpSave meta) =>
         localStorage w' = ∅
         ∧ sessionStorage w' = meta
         ∧ (hasCodeVerifier meta = true → (loadMeta sdk w').1 = Ok meta)
     | Some _ =>
         localStorage w' = ∅
         ∧ sessionStorage w' = ∅
         ∧ (loadMeta sdk w').1 = Throw (AuthSdkError errNoPKCEState)
     | None =>
         localStorage w' = localStorage w
         ∧ sessionStorage w' = sessionStorage w
         ∧ (loadMeta sdk w').1 = (loadMeta sdk w).1
     end)
  ∧ (prefersLocalStorage sdk = true →
     sessionStorage w' = sessionStorage w
     ∧ localStorage w'
       = match lastWrite ops with
         | Some (OpSave meta) => meta
         | Some _ => ∅
         | None => localStorage w
         end).
Proof.
  intros w'. subst w'.
  destruct (runOps_tiers sdk ops w) as [HA HB].
  split; intros Hsdk; rewrite Hsdk in HA, HB.
  - rewrite !loadMeta_run, HA, HB.
    destruct (lastWrite ops) as [[meta| |]|];
      (split; [reflexivity|]); (split; [reflexivity|]);
      rewrite ?hasCodeVerifier_empty; try reflexivity.
    + now intros ->.
    + destruct (hasCodeVerifier (localStorage w));
        [|destruct (hasCodeVerifier (sessionStorage w))]; reflexivity.
  - split; [exact HB|]. rewrite HA. now destruct (lastWrite ops) as [[]|].
Qed.

Lemma store_history_witness :
  (loadMeta someSdk (runOps someSdk sampleHistory staleWorld)).1 = Ok freshMeta
  ∧ sessionStorage (runOps preferringSdk sampleHistory staleWorld)
    = sessionStorage staleWorld.
Proof.
  split.
  - apply (proj1 (store_history someSdk sampleHistory staleWorld) eq_refl).
    reflexivity.
  - apply (proj2 (store_history preferringSdk sampleHistory staleWorld) eq_refl).
Defined.

(** X9. What [loadMeta] returns always holds a code verifier: it is the
    record of tier A, or the record of tier B when tier A holds none;
    and when [loadMeta] throws, it throws the error of the missing PKCE
    state and neither tier holds a code verifier, whatever falsy value
    ([undefined], [null], [false], [0], the empty string) stands there. *)
Theorem loadMeta_result (sdk : Sdk) (w : world) :
  (∀ r w', loadMeta sdk w = (Ok r, w') →
     hasCodeVerifier r = true
     ∧ (r = localStorage w
        ∨ r = sessionStorage w ∧ hasCodeVerifier (localStorage w) = false))
  ∧ (∀ e w', loadMeta sdk w = (Throw e, w') →
       e = AuthSdkError errNoPKCEState
       ∧ hasCodeVerifier (localStorage w) = false
       ∧ hasCodeVerifier (sessionStorage w) = false)
  ∧ (∀ obj v, obj !! "codeVerifier" = Some v →
       v = JNull ∨ v = JUndefined ∨ v = JBool false ∨ v = JNum 0 ∨ v = JStr "" →
       hasCodeVerifier obj = false).
Proof.
  rewrite loadMeta_run.
  destruct (hasCodeVerifier (localStorage w)) eqn:HA;
    [|destruct (hasCodeVerifier (sessionStorage w)) eqn:HB].
  all: split; [intros r w' [= <- <-] || (intros r w' Heq; discriminate Heq)
              |split; [intros e w' [= <- <-] || (intros e w' Heq; discriminate Heq)|]].
  all: try (intros obj v Hv Hfalsy; unfold hasCodeVerifier, getProp;
            rewrite Hv; now destruct Hfalsy as [->|[->|[->|[->| ->]]]]).
  all: auto.
Qed.

Lemma loadMeta_result_witness :
  hasCodeVerifier (sessionStorage sessionOnlyWorld) = true
  ∧ hasCodeVerifier {["codeVerifier" := JNum 0]} = false.
Proof.
  split.
  - apply (proj1 (loadMeta_result someSdk sessionOnlyWorld)
             (sessionStorage sessionOnlyWorld)
             (record (EvGet TierB) (record (EvGet TierA) sessionOnlyWorld))).
    reflexivity.
  - apply (proj2 (proj2 (loadMeta_result someSdk emptyWorld))
             {["codeVerifier" := JNum 0]} (JNum 0)).
    + reflexivity.
    + right. right. right. left. reflexivity.
Defined.

(** X15. For an sdk whose cookies options do not carry
    [preferLocalStorage], [saveMeta] establishes the invariant from any
    state: after an inspection phase it clears both tiers and then
    writes the record to tier B only, so tier A is empty and tier B holds
    exactly the new record; [clearMeta] leaves no record; [loadMeta]
    leaves both tiers as they were; hence each of the three operations
    preserves "at most one record with a code verifier across the two
    tiers". *)
Theorem store_invariant (sdk : Sdk) (meta : gmap string jsval) :
  prefersLocalStorage sdk = false →
  (∀ w : world,
     let w1 := (saveMeta sdk meta w).2 in
     localStorage w1 = ∅
     ∧ sessionStorage w1 = meta
     ∧ atMostOneRecord w1 = true
     ∧ ∃ inspection : list event,
         forallb isInspection inspection = true
         ∧ trace w1 = (trace w ++ inspection
                        ++ [EvClear TierB; EvClear TierA; EvSet TierB meta])%list)
  ∧ (∀ w : world, recordCount (clearMeta sdk w).2 = 0)
  ∧ (∀ w : world,
       localStorage (loadMeta sdk w).2 = localStorage w
       ∧ sessionStorage (loadMeta sdk w).2 = sessionStorage w)
  ∧ (∀ w : world,
       atMostOneRecord w = true →
       atMostOneRecord (saveMeta sdk meta w).2 = true
       ∧ atMostOneRecord (clearMeta sdk w).2 = true
       ∧ atMostOneRecord (loadMeta sdk w).2 = true).
Proof.
  intros Hsdk%default_tier_session.
  assert (Hload : ∀ w : world,
            localStorage (loadMeta sdk w).2 = localStorage w
            ∧ sessionStorage (loadMeta sdk w).2 = sessionStorage w).
  { intros w. rewrite loadMeta_run.
    destruct (hasCodeVerifier (localStorage w));
      [|destruct (hasCodeVerifier (sessionStorage w))]; split; reflexivity. }
  split; [|split; [|split]].
  - intros w w1. subst w1. rewrite saveMeta_run.
    unfold saveMetaTrace. rewrite Hsdk.
    cbn [snd localStorage sessionStorage trace].
    repeat split.
    exists (saveMetaInspection sdk w).
    split; [|reflexivity].
    unfold saveMetaInspection. rewrite Hsdk.
    destruct (hasCodeVerifier (localStorage w)),
             (hasCodeVerifier (readTier TierB w)); reflexivity.
  - intros w. now rewrite clearMeta_run, Hsdk.
  - exact Hload.
  - intros w Hinv. rewrite saveMeta_run, clearMeta_run, Hsdk.
    repeat split.
    unfold atMostOneRecord.
    destruct (Hload w) as [-> ->]. exact Hinv.
Qed.

Lemma store_invariant_witness :
  atMostOneRecord sessionOnlyWorld = true
  ∧ atMostOneRecord (saveMeta someSdk freshMeta sessionOnlyWorld).2 = true
  ∧ atMostOneRecord (clearMeta someSdk sessionOnlyWorld).2 = true
  ∧ atMostOneRecord (loadMeta someSdk sessionOnlyWorld).2 = true.
Proof.
  split; [reflexivity|].
  apply (proj2 (proj2 (proj2 (store_invariant someSdk freshMeta eq_refl)))
           sessionOnlyWorld).
  reflexivity.
Defined.

(** X16. [clearMeta] returns normally from every state and for every sdk,
    leaves tier A empty, and a second [clearMeta] changes neither tier.
    For an sdk whose cookies options do not carry [preferLocalStorage]
    it clears tier B and then tier A, both tiers are empty afterwards,
    and the [loadMeta] that follows throws the error of the missing PKCE
    state. *)
Theorem clearMeta_idempotent (sdk : Sdk) (w : world) :
  let w1 := (clearMeta sdk w).2 in
  let w2 := (clearMeta sdk w1).2 in
  (clearMeta sdk w).1 = Ok tt
  ∧ localStorage w1 = ∅
  ∧ (clearMeta sdk w1).1 = Ok tt
  ∧ localStorage w2 = localStorage w1
  ∧ sessionStorage w2 = sessionStorage w1
  ∧ (prefersLocalStorage sdk = false →
     trace w1 = (trace w ++ [EvClear TierB; EvClear TierA])%list
     ∧ sessionStorage w1 = ∅
     ∧ (loadMeta sdk w1).1 = Throw (AuthSdkError errNoPKCEState)
     ∧ (loadMeta sdk w2).1 = Throw (AuthSdkError errNoPKCEState)).
Proof.
  intros w1 w2. subst w2 w1.
  rewrite !clearMeta_run. cbn [fst snd localStorage sessionStorage trace].
  split; [reflexivity|]. split; [reflexivity|]. split; [reflexivity|].
  split; [reflexivity|].
  split; [now destruct (getStorage sdk None)|].
  intros Hsdk%default_tier_session. rewrite Hsdk.
  rewrite !loadMeta_run. cbn [localStorage sessionStorage].
  rewrite hasCodeVerifier_empty.
  repeat split.
Qed.

Lemma clearMeta_idempotent_witness :
  (loadMeta someSdk (clearMeta someSdk staleWorld).2).1
    = Throw (AuthSdkError errNoPKCEState).
Proof.
  apply (proj2 (proj2 (proj2 (proj2 (proj2
           (clearMeta_idempotent someSdk staleWorld))))) eq_refl).
Defined.

(** ** The token exchanger, further *)

Lemma getPostParams_cases (options : TokenParams) :
  getPostParams options =
    (removeNils
      [ ("client_id", clientId options);
        ("redirect_uri", redirectUri options);
        ("grant_type",
           Some (ofString (if missing (interactionCode options)
                           then "authorization_code" else "interaction_code")));
        ("code_verifier", codeVerifier options) ]
    ++ (if missing (interactionCode options) then
          if missing (authorizationCode options) then []
          else [("code", authorizationCode options)]
        else [("interaction_code", interactionCode options)]))%list.
Proof.
  unfold getPostParams, missing.
  destruct options as [ci ru ac ic cv].
  cbn [clientId redirectUri authorizationCode interactionCode codeVerifier].
  destruct (truthyField ic); [|destruct (truthyField ac)];
    destruct ci, ru, cv; reflexivity.
Qed.

(** X11. For every [options], validated or not, the OAuth parameters hold
    no property without a value; [client_id], [redirect_uri] and
    [code_verifier] read as the fields of [options], an empty string
    included; [grant_type] is [interaction_code] exactly when the
    [interaction_code] property is there and [authorization_code]
    otherwise; and [code] and [interaction_code] are never both there. *)
Theorem getPostParams_shape (options : TokenParams) :
  let params := getPostParams options in
  (∀ k v, (k, v) ∈ params → is_Some v)
  ∧ readProp "client_id" params = clientId options
  ∧ readProp "redirect_uri" params = redirectUri options
  ∧ readProp "code_verifier" params = codeVerifier options
  ∧ readProp "grant_type" params
      = Some (ofString (if hasOwnProperty "interaction_code" params
                        then "interaction_code" else "authorization_code"))
  ∧ hasOwnProperty "interaction_code" params
      = negb (missing (interactionCode options))
  ∧ hasOwnProperty "code" params
      = missing (interactionCode options)
        && negb (missing (authorizationCode options))
  ∧ hasOwnProperty "code" params
      && hasOwnProperty "interaction_code" params = false.
Proof.
  intros params. subst params. rewrite getPostParams_cases.
  destruct options as [ci ru ac ic cv].
  cbn [clientId redirectUri authorizationCode interactionCode codeVerifier].
  destruct ic as [[|i0 ic]|], ac as [[|a0 ac]|], ci as [ci|], ru as [ru|],
    cv as [cv|];
    cbn -[ofString].
  all: split;
    [intros k v Hin;
     repeat (apply elem_of_cons in Hin as [Hin|Hin]; [inversion Hin; eauto|]);
     now apply elem_of_nil in Hin
    |repeat split].
Qed.

Lemma getPostParams_shape_witness :
  is_Some (Some (ofString "abc"))
  ∧ readProp "grant_type" (getPostParams bothCodes)
    = Some (ofString "interaction_code").
Proof.
  destruct (getPostParams_shape bothCodes) as (Hvalues & _ & _ & _ & Hgrant & _).
  split; [|exact Hgrant].
  apply (Hvalues "client_id" (Some (ofString "abc"))).
  apply elem_of_cons. now left.
Defined.

(** *** The body cannot be split by a value *)

Lemma countChar_append (c : ascii) (s1 s2 : string) :
  countChar c (s1 ++ s2) = countChar c s1 + countChar c s2.
Proof.
  induction s1 as [|d s1 IH]; [reflexivity|].
  change ((if Ascii.eqb c d then 1 else 0) + countChar c (s1 ++ s2)
          = (if Ascii.eqb c d then 1 else 0) + countChar c s1 + countChar c s2).
  rewrite IH. lia.
Qed.

Lemma countChar_excluded (p : ascii → bool) (c : ascii) (s : string) :
  p c = false → allChars p s = true → countChar c s = 0.
Proof.
  intros Hc. induction s as [|d s IH]; [reflexivity|]. simpl.
  intros [Hd Hs]%andb_true_iff. rewrite (IH Hs).
  destruct (Ascii.eqb_spec c d) as [->|]; [congruence | reflexivity].
Qed.

Lemma oauth_key_plain (k : string) :
  isOAuthKey k = true → countChar "&" k = 0 ∧ countChar "=" k = 0.
Proof.
  unfold isOAuthKey. cbn [existsb]. rewrite !orb_true_iff.
  intros [H|[H|[H|[H|[H|[H|H]]]]]]; try discriminate H;
    apply String.eqb_eq in H; subst k; split; reflexivity.
Qed.

Lemma join_count (strs : list string) :
  Forall (λ s, countChar "=" s = 1 ∧ countChar "&" s = 0) strs →
  countChar "=" (join "&" strs) = length strs
  ∧ countChar "&" (join "&" strs) = length strs - 1.
Proof.
  induction 1 as [|s strs [Heq Hamp] Hstrs [IHeq IHamp]]; [split; reflexivity|].
  destruct strs as [|s' strs].
  - cbn [join length]. now rewrite Heq, Hamp.
  - change (join "&" (s :: s' :: strs)) with (s ++ "&" ++ join "&" (s' :: strs)).
    rewrite !(countChar_append _ s), !(countChar_append _ "&").
    rewrite Heq, Hamp, IHeq, IHamp. cbn [length]. split; simpl; lia.
Qed.

(** The [key=value] strings of parameters with the keys of the token
    request: an error, [URIError], exactly when a value has a lone
    surrogate; otherwise one string for each parameter, with one [=] and
    no [&]. *)
Lemma encodePairs_outcome (obj : OAuthParams) :
  Forall (λ p, isOAuthKey (fst p) = true ∧ is_Some (snd p)) obj →
  match encodePairs obj with
  | Ok strs =>
      allWellFormed obj = true
      ∧ length strs = length obj
      ∧ Forall (λ s, countChar "=" s = 1 ∧ countChar "&" s = 0) strs
  | Throw x => x = URIError ∧ allWellFormed obj = false
  end.
Proof.
  induction 1 as [|[k [v|]] obj [Hk Hv] Hobj IH].
  - repeat split. constructor.
  - cbn [encodePairs allWellFormed forallb snd].
    fold (allWellFormed obj).
    pose proof (encode_outcome v) as Hval.
    destruct (encodeURIComponent v) as [e|x]; cbn.
    + destruct Hval as (-> & Hsafe & _).
      destruct (encodePairs obj) as [strs|x]; cbn; [|exact IH].
      destruct IH as (-> & Hlen & Hall).
      destruct (oauth_key_plain k Hk) as [Hamp Heq].
      split; [reflexivity|]. split; [now f_equal|].
      constructor; [|exact Hall].
      rewrite !countChar_append, Heq, Hamp.
      rewrite !(countChar_excluded urlSafe _ e) by (reflexivity || exact Hsafe).
      split; reflexivity.
    + destruct Hval as [-> ->]. now split.
  - destruct Hv as [x Hx]. discriminate Hx.
Qed.

Lemma getPostParams_keys (options : TokenParams) :
  Forall (λ p, isOAuthKey (fst p) = true ∧ is_Some (snd p))
    (getPostParams options)
  ∧ (1 ≤ length (getPostParams options) ≤ 5)%nat.
Proof.
  rewrite getPostParams_cases.
  destruct options as [ci ru ac ic cv].
  cbn [clientId redirectUri authorizationCode interactionCode codeVerifier].
  destruct ic as [[|i0 ic]|], ac as [[|a0 ac]|], ci as [ci|], ru as [ru|],
    cv as [cv|]; cbn -[ofString].
  all: split;
    [repeat (apply List.Forall_cons;
             [split; [reflexivity | eexists; reflexivity]|]);
     apply List.Forall_nil
    |simpl; lia].
Qed.

(** The outcome of [getPostData], for every [options]. *)
Lemma getPostData_outcome (options : TokenParams) :
  match getPostData options with
  | Ok body =>
      allWellFormed (getPostParams options) = true
      ∧ countChar "=" body = length (getPostParams options)
      ∧ countChar "&" body = length (getPostParams options) - 1
  | Throw x => x = URIError ∧ allWellFormed (getPostParams options) = false
  end.
Proof.
  destruct (getPostParams_keys options) as [Hkeys Hlen].
  pose proof (encodePairs_outcome _ Hkeys) as Hpairs.
  unfold getPostData, toQueryString.
  destruct (encodePairs (getPostParams options)) as [strs|x]; cbn;
    [|exact Hpairs].
  destruct Hpairs as (Hwf & Hstrs & Hall).
  apply join_count in Hall. rewrite Hstrs in Hall.
  split; [exact Hwf|].
  destruct strs as [|s strs].
  - destruct (getPostParams options); [split; reflexivity | discriminate Hstrs].
  - change ("?" ++ ?x) with (String "?" x). rewrite sliceFrom_1. exact Hall.
Qed.

(** X12. Whatever the fields of [options] hold, [getPostData] throws
    [URIError] exactly when a value it has to send has a lone surrogate;
    otherwise its body has exactly one [=] for each OAuth parameter and
    one [&] between two parameters, nothing more: a value cannot add,
    split or end a parameter.  There are five parameters when [options]
    passes [validateOptions], and between one and five otherwise. *)
Theorem getPostData_no_injection (options : TokenParams) :
  let params := getPostParams options in
  (∀ body, getPostData options = Ok body →
     countChar "=" body = length params
     ∧ countChar "&" body = length params - 1)
  ∧ ((∃ body, getPostData options = Ok body) ↔ allWellFormed params = true)
  ∧ (getPostData options = Throw URIError ↔ allWellFormed params = false)
  ∧ (∀ e, getPostData options = Throw e → e = URIError)
  ∧ (1 ≤ length params ≤ 5)%nat
  ∧ (∀ w w', validateOptions options w = (Ok tt, w') → length params = 5).
Proof.
  intros params. subst params.
  pose proof (getPostData_outcome options) as Hout.
  destruct (getPostParams_keys options) as [_ Hlen].
  split; [|split; [|split; [|split; [|split]]]].
  - intros body Hbody. rewrite Hbody in Hout. exact (proj2 Hout).
  - destruct (getPostData options) as [body|x].
    + split; [intros _; exact (proj1 Hout) | intros _; now exists body].
    + destruct Hout as [_ Hout]. split; [intros [body H]; discriminate H|].
      congruence.
  - destruct (getPostData options) as [body|x].
    + destruct Hout as [Hout _]. split; [discriminate | congruence].
    + destruct Hout as [-> Hout]. now split.
  - intros e He. rewrite He in Hout. exact (proj1 Hout).
  - exact Hlen.
  - intros w w'. rewrite validateOptions_run, getPostParams_cases.
    destruct options as [ci ru ac ic cv].
    cbn [clientId redirectUri authorizationCode interactionCode codeVerifier].
    destruct ic as [[|i0 ic]|], ac as [[|a0 ac]|], ci as [[|c0 ci]|],
      ru as [[|r0 ru]|], cv as [[|v0 cv]|]; cbn -[ofString]; intros H;
      first [discriminate H | reflexivity].
Qed.

Lemma getPostData_no_injection_witness :
  countChar "&" authorizationBody = 4
  ∧ getPostData illFormedParams = Throw URIError
  ∧ length (getPostParams bothCodes) = 5.
Proof.
  split; [|split].
  - apply (proj1 (getPostData_no_injection authorizationParams)
             authorizationBody eq_refl).
  - apply (proj1 (proj2 (proj2 (getPostData_no_injection illFormedParams)))).
    reflexivity.
  - apply (proj2 (proj2 (proj2 (proj2 (proj2
             (getPostData_no_injection bothCodes))))) emptyWorld emptyWorld).
    reflexivity.
Defined.

Section ExchangeFurther.

Variable OAuthResponse : Type.
Variable endpoint : HttpRequest → promise OAuthResponse.

(** X10. [exchangeCodeForTokens] never reads or writes the storage tiers
    and emits no warning.  It has three outcomes.  It throws an
    [AuthSdkError] of the validation and the world is untouched; or the
    parameters pass the validation but a value to send has a lone
    surrogate, and it throws the [URIError] of [getPostData], the world
    untouched as well; or it issues exactly one request: a POST to the
    token URL, without credentials, form-encoded, with the body
    [getPostData] returns, and returns the promise of the HTTP client as
    it is, a rejected one included: a transport failure is never thrown
    by the call itself.  The request is issued if and only if client id,
    redirect URI and code verifier are all non-empty, one of the two
    codes is, and no value to send has a lone surrogate. *)
Theorem exchange_effects (sdk : Sdk) (options : TokenParams)
    (urls : CustomUrls) (w : world) :
  let run := exchangeCodeForTokens OAuthResponse endpoint sdk options urls w in
  localStorage run.2 = localStorage w
  ∧ sessionStorage run.2 = sessionStorage w
  ∧ ((∃ msg, run = (Throw (AuthSdkError msg), w))
     ∨ (run = (Throw URIError, w)
        ∧ validateOptions options w = (Ok tt, w)
        ∧ getPostData options = Throw URIError)
     ∨ (∃ data req,
          getPostData options = Ok data
          ∧ run = (Ok (endpoint req), record (EvHttp req) w)
          ∧ url req = tokenUrl urls
          ∧ method req = "POST"
          ∧ withCredentials req = false
          ∧ headers req
              = [("Content-Type", "application/x-www-form-urlencoded")]
          ∧ args req = data))
  ∧ ((∃ p, run.1 = Ok p) ↔
       missing (clientId options) = false
       ∧ missing (redirectUri options) = false
       ∧ missing (authorizationCode options)
         && missing (interactionCode options) = false
       ∧ missing (codeVerifier options) = false
       ∧ allWellFormed (getPostParams options) = true).
Proof.
  intros run. subst run.
  rewrite exchangeCodeForTokens_run, validateOptions_run.
  pose proof (getPostData_outcome options) as Hout.
  destruct (missing (clientId options));
    [|destruct (missing (redirectUri options));
      [|destruct (missing (authorizationCode options)
                  && missing (interactionCode options));
        [|destruct (missing (codeVerifier options))]]].
  1-4: split; [reflexivity|]; split; [reflexivity|]; split;
    [left; eexists; reflexivity|];
    split;
    [intros [p Hp]; discriminate Hp
    |intros (H1 & H2 & H3 & H4 & _); discriminate].
  destruct (getPostData options) as [data|x].
  - destruct Hout as [Hwf _].
    split; [reflexivity|]. split; [reflexivity|]. split.
    + right. right. exists data, (tokenRequest data urls). repeat split.
    + split; [intros _; repeat split; exact Hwf | intros _; eexists; reflexivity].
  - destruct Hout as [-> Hwf].
    split; [reflexivity|]. split; [reflexivity|]. split.
    + right. left. repeat split.
    + split; [intros [p Hp]; discriminate Hp|].
      intros (_ & _ & _ & _ & H). congruence.
Qed.

End ExchangeFurther.

Lemma exchange_effects_witness :
  (∃ p, (exchangeCodeForTokens string okEndpoint someSdk bothCodes someUrls
           staleWorld).1 = Ok p)
  ∧ exchangeCodeForTokens string okEndpoint someSdk illFormedParams someUrls
      staleWorld = (Throw URIError, staleWorld).
Proof.
  split.
  - apply (proj2 (proj2 (proj2 (proj2 (exchange_effects string okEndpoint
                                        someSdk bothCodes someUrls
                                        staleWorld))))).
    repeat split.
  - destruct (proj1 (proj2 (proj2 (exchange_effects string okEndpoint someSdk
                                     illFormedParams someUrls staleWorld))))
      as [[msg H]|[[H _]|(data & req & H & _)]].
    + discriminate H.
    + exact H.
    + discriminate H.
Defined.

(** ** The challenge deriver, further *)

Lemma stripPadding_cons (x : ascii) (r : string) :
  isPadding x = false → stripPadding (String x r) = String x (stripPadding r).
Proof.
  unfold isPadding. intros Hx. simpl.
  destruct (stripPadding r); [now rewrite Hx | reflexivity].
Qed.

Lemma base64ToBase64Url_cons (x : ascii) (r : string) :
  isPadding x = false →
  String.length (base64ToBase64Url (String x r))
    = S (String.length (base64ToBase64Url r)).
Proof.
  intros Hx. unfold base64ToBase64Url. cbn [replaceAll].
  rewrite stripPadding_cons; [reflexivity|].
  destruct (Ascii.eqb x "+"); [reflexivity|].
  destruct (Ascii.eqb x "/"); [reflexivity | exact Hx].
Qed.

Lemma stringToBase64Url_length (s : string) :
  String.length (stringToBase64Url s) = (4 * String.length s + 2) / 3.
Proof.
  assert (H : ∀ n s, (String.length s ≤ n)%nat →
            String.length (stringToBase64Url s) = (4 * String.length s + 2) / 3).
  { clear s. unfold stringToBase64Url.
    induction n as [|n IH]; intros [|a [|b [|c r]]] Hlen;
      simpl in Hlen; try lia; try reflexivity.
    - cbn [btoa]. now rewrite !base64ToBase64Url_cons by apply b64_not_padding.
    - cbn [btoa]. now rewrite !base64ToBase64Url_cons by apply b64_not_padding.
    - cbn [btoa]. rewrite !base64ToBase64Url_cons by apply b64_not_padding.
      rewrite IH by lia. cbn [String.length].
      generalize (String.length r). intros m.
      replace (4 * S (S (S m)) + 2) with (4 * 3 + (4 * m + 2)) by lia.
      rewrite (Nat.div_add_l 4 3) by lia. reflexivity. }
  now apply (H (String.length s)).
Qed.

Section ChallengeFurther.

Variable sha256 : list N → list N.

(** X13. The challenge has two characters more than four for every three
    bytes of the digest would give, rounded down: [(4 n + 2) / 3] for a
    digest of [n] bytes, so 43 characters for the 32 bytes of SHA-256,
    whatever the verifier. *)
Theorem computeChallenge_length (verifier : string) (w : world) :
  ∃ challenge : string,
    (computeChallenge sha256 verifier w).1 = Ok (Resolved challenge)
    ∧ String.length challenge
        = (4 * length (sha256 (textEncode verifier)) + 2) / 3
    ∧ (length (sha256 (textEncode verifier)) = 32 →
       String.length challenge = 43).
Proof.
  eexists. split; [reflexivity|].
  rewrite stringToBase64Url_length, fromCharCode_length.
  split; [reflexivity|]. now intros ->.
Qed.

End ChallengeFurther.

Lemma computeChallenge_length_witness :
  ∃ challenge : string,
    (computeChallenge sampleDigest "verifier-1" emptyWorld).1
      = Ok (Resolved challenge)
    ∧ String.length challenge = 43.
Proof.
  destruct (computeChallenge_length sampleDigest "verifier-1" emptyWorld)
    as (challenge & Hrun & _ & Hlen).
  exists challenge. split; [exact Hrun|]. apply Hlen. reflexivity.
Defined.

(** ** The whole flow *)

Lemma nonempty_present (s : jsstring) : s ≠ [] → missing (Some s) = false.
Proof. destruct s; [contradiction | reflexivity]. Qed.

Lemma omitted_prefix_verifier (entropy : nat → Byte.byte) :
  let v := getRandomString entropy MIN_VERIFIER_LENGTH in
  generateVerifier entropy None = Ok v
  ∧ v ≠ ""
  ∧ ofString v ≠ []
  ∧ encodeURIComponent (ofString v) = Ok v.
Proof.
  intros v. subst v.
  destruct (getRandomString_hex entropy MIN_VERIFIER_LENGTH) as [Hlen Hhex].
  split; [apply generateVerifier_omitted|].
  split; [|split].
  - intros Hempty. rewrite Hempty in Hlen. discriminate Hlen.
  - intros Hempty. apply (f_equal (@length N)) in Hempty.
    rewrite ofString_length, Hlen in Hempty. discriminate Hempty.
  - apply encode_unreserved, (allChars_impl _ _ _ hex_unreserved Hhex).
Qed.

Lemma countHttp_app (l1 l2 : list event) :
  countHttp (l1 ++ l2) = countHttp l1 + countHttp l2.
Proof. unfold countHttp. now rewrite List.filter_app, length_app. Qed.

Lemma saveMetaTrace_http (sdk : Sdk) (w : world) (meta : gmap string jsval) :
  countHttp (saveMetaTrace sdk w meta) = 0.
Proof.
  unfold saveMetaTrace, saveMetaInspection.
  destruct (hasCodeVerifier (localStorage w)),
           (hasCodeVerifier (readTier (getStorage sdk None) w)); reflexivity.
Qed.

Section WholeFlow.

Variable OAuthResponse : Type.
Variable endpoint : HttpRequest → promise OAuthResponse.
Variable entropy : nat → Byte.byte.

(** X14. The flow end to end, for every [sdk] and from any state of the
    tiers, with a client id, a redirect URI and an authorization code that
    are non-empty and free of lone surrogates: a verifier is generated
    without prefix, saved, loaded back unchanged, and exchanged with the
    authorization code; the exchange issues exactly one request, the only
    request of the whole flow, whose body carries the verifier as it was
    generated, after [client_id], [redirect_uri] and
    [grant_type=authorization_code] and before [code]; the record is
    still in the tier [saveMeta] wrote afterwards: the exchange does not
    clear it. *)
Theorem pkce_flow (sdk : Sdk) (urls : CustomUrls) (w : world)
    (client redirect code : jsstring) :
  client ≠ [] → redirect ≠ [] → code ≠ [] →
  isWellFormed client = true →
  isWellFormed redirect = true →
  isWellFormed code = true →
  ∃ (v ec er ecode : string) (w1 w2 w3 : world) (req : HttpRequest),
    let meta : gmap string jsval := {["codeVerifier" := JStr v]} in
    let options :=
      {| clientId := Some client; redirectUri := Some redirect;
         authorizationCode := Some code; interactionCode := None;
         codeVerifier := Some (ofString v) |} in
    generateVerifier entropy None = Ok v
    ∧ encodeURIComponent client = Ok ec
    ∧ encodeURIComponent redirect = Ok er
    ∧ encodeURIComponent code = Ok ecode
    ∧ saveMeta sdk meta w = (Ok tt, w1)
    ∧ loadMeta sdk w1 = (Ok meta, w2)
    ∧ exchangeCodeForTokens OAuthResponse endpoint sdk options urls w2
        = (Ok (endpoint req), w3)
    ∧ args req =
        "client_id=" ++ ec
        ++ "&redirect_uri=" ++ er
        ++ "&grant_type=authorization_code"
        ++ "&code_verifier=" ++ v
        ++ "&code=" ++ ecode
    ∧ trace w3 = (trace w ++ saveMetaTrace sdk w meta
                  ++ (if prefersLocalStorage sdk then [EvGet TierA]
                      else [EvGet TierA; EvGet TierB])
                  ++ [EvHttp req])%list
    ∧ countHttp (trace w3) = S (countHttp (trace w))
    ∧ readTier (getStorage sdk None) w3 = meta
    ∧ localStorage w3 = (if prefersLocalStorage sdk then meta else ∅).
Proof.
  intros Hclient Hredirect Hcode Wclient Wredirect Wcode.
  destruct (omitted_prefix_verifier entropy) as (Hgen & Hv & Hunits & Henc).
  set (v := getRandomString entropy MIN_VERIFIER_LENGTH) in *.
  destruct (encode_wellFormed client Wclient) as (ec & Hec & _).
  destruct (encode_wellFormed redirect Wredirect) as (er & Her & _).
  destruct (encode_wellFormed code Wcode) as (ecode & Hecode & _).
  set (meta := {["codeVerifier" := JStr v]} : gmap string jsval).
  set (options := {| clientId := Some client; redirectUri := Some redirect;
                     authorizationCode := Some code; interactionCode := None;
                     codeVerifier := Some (ofString v) |}).
  set (body := "client_id=" ++ ec ++ "&redirect_uri=" ++ er
               ++ "&grant_type=authorization_code"
               ++ "&code_verifier=" ++ v ++ "&code=" ++ ecode).
  assert (Hmeta : hasCodeVerifier meta = true).
  { apply (hasCodeVerifier_string meta v); [apply lookup_singleton_eq | exact Hv]. }
  assert (Hdata : getPostData options = Ok body).
  { unfold getPostData, options.
    rewrite (getPostParams_authorization client redirect (ofString v) code None
               eq_refl (nonempty_present _ Hcode)).
    rewrite form_encoding, Hec, Her, (proj2 encode_grant_types), Henc, Hecode.
    reflexivity. }
  assert (Hvalid : ∀ w', validateOptions options w' = (Ok tt, w')).
  { intros w'. rewrite validateOptions_run.
    cbn [options clientId redirectUri authorizationCode interactionCode
         codeVerifier].
    now rewrite (nonempty_present _ Hclient), (nonempty_present _ Hredirect),
      (nonempty_present _ Hcode), (nonempty_present _ Hunits). }
  exists v, ec, er, ecode.
  destruct (prefersLocalStorage sdk) eqn:Hprefers.
  - pose proof (default_tier_local sdk Hprefers) as Htier.
    eexists _, _, _, (tokenRequest body urls).
    cbn zeta. fold meta options.
    split; [exact Hgen|]. split; [exact Hec|]. split; [exact Her|].
    split; [exact Hecode|].
    split; [apply saveMeta_run|].
    split.
    { rewrite loadMeta_run, Htier. cbn [localStorage sessionStorage].
      rewrite Hmeta. reflexivity. }
    split.
    { rewrite exchangeCodeForTokens_run, Hvalid, Hdata. reflexivity. }
    split; [reflexivity|].
    split; [cbn [trace record]; now rewrite <- !app_assoc|].
    split.
    { cbn [trace record]. rewrite !countHttp_app.
      rewrite saveMetaTrace_http. unfold countHttp. simpl. lia. }
    rewrite Htier. split; reflexivity.
  - pose proof (default_tier_session sdk Hprefers) as Htier.
    eexists _, _, _, (tokenRequest body urls).
    cbn zeta. fold meta options.
    split; [exact Hgen|]. split; [exact Hec|]. split; [exact Her|].
    split; [exact Hecode|].
    split; [apply saveMeta_run|].
    split.
    { rewrite loadMeta_run, Htier. cbn [localStorage sessionStorage].
      rewrite hasCodeVerifier_empty, Hmeta. reflexivity. }
    split.
    { rewrite exchangeCodeForTokens_run, Hvalid, Hdata. reflexivity. }
    split; [reflexivity|].
    split; [cbn [trace record]; now rewrite <- !app_assoc|].
    split.
    { cbn [trace record]. rewrite !countHttp_app.
      rewrite saveMetaTrace_http. unfold countHttp. simpl. lia. }
    rewrite Htier. split; reflexivity.
Qed.

End WholeFlow.

Lemma pkce_flow_witness :
  ∃ (v : string) (w1 w2 w3 : world) (req : HttpRequest),
    generateVerifier sampleEntropy None = Ok v
    ∧ saveMeta preferringSdk {["codeVerifier" := JStr v]} staleWorld
        = (Ok tt, w1)
    ∧ loadMeta preferringSdk w1 = (Ok {["codeVerifier" := JStr v]}, w2)
    ∧ exchangeCodeForTokens string okEndpoint preferringSdk
        {| clientId := Some (ofString "abc");
           redirectUri := Some (ofString "https://app/cb");
           authorizationCode := Some (ofString "code123");
           interactionCode := None;
           codeVerifier := Some (ofString v) |}
        someUrls w2 = (Ok (okEndpoint req), w3)
    ∧ args req =
        "client_id=abc&redirect_uri=https%3A%2F%2Fapp%2Fcb&grant_type=authorization_code&code_verifier=a70fa70fa70fa70fa70fa70fa70fa70fa70fa70fa70&code=code123"
    ∧ countHttp (trace w3) = 1.
Proof.
  destruct (pkce_flow string okEndpoint sampleEntropy preferringSdk someUrls
              staleWorld (ofString "abc") (ofString "https://app/cb")
              (ofString "code123"))
    as (v & ec & er & ecode & w1 & w2 & w3 & req & Hgen & Hec & Her & Hecode
        & Hsave & Hload & Hexchange & Hbody & _ & Hcount & _);
    try discriminate; try reflexivity.
  exists v, w1, w2, w3, req.
  split; [exact Hgen|]. split; [exact Hsave|]. split; [exact Hload|].
  split; [exact Hexchange|].
  split; [|exact Hcount].
  rewrite Hbody.
  injection Hgen as <-. injection Hec as <-. injection Her as <-.
  injection Hecode as <-. reflexivity.
Defined.
